(** * YouTube video summarizer: client store, URL utilities, workflow

    A shallow embedding of the web client's state store ([useAppStore]),
    of the YouTube URL and timestamp utilities, and of the summarization
    workflow the backend documentation describes: the per-mode workflow
    table, the stage resolver and orchestration engine, and the rate
    limiter in front of it.

    Part I holds the definitions, Part II the properties. *)

From Stdlib Require Import ZArith NArith Lia String Ascii DecimalN.
From stdpp Require Import gmap strings list.

Local Open Scope string_scope.
Local Open Scope list_scope.

(** ** JavaScript strings

    A JavaScript string is a sequence of UTF-16 code units.  The regular
    expressions of the source carry no [u] flag, so they work on code
    units as well. *)

Module JS.

Abbreviation jsstring := (list N).

(** A string literal of the source, all of whose characters are ASCII. *)
Definition lit (s : string) : jsstring :=
  map N_of_ascii (list_ascii_of_string s).

(** [WhiteSpace] and [LineTerminator] code points, which
    [String.prototype.trim] removes and [Number] skips. *)
Definition isWhiteSpace (c : N) : bool :=
  ((9 <=? c) && (c <=? 13))%N || (c =? 32)%N || (c =? 160)%N
  || (c =? 5760)%N || ((8192 <=? c) && (c <=? 8202))%N
  || (c =? 8232)%N || (c =? 8233)%N || (c =? 8239)%N || (c =? 8287)%N
  || (c =? 12288)%N || (c =? 65279)%N.

Fixpoint trimStart (s : jsstring) : jsstring :=
  match s with
  | [] => []
  | c :: r => if isWhiteSpace c then trimStart r else s
  end.

Fixpoint trimEnd (s : jsstring) : jsstring :=
  match s with
  | [] => []
  | c :: r =>
      match trimEnd r with
      | [] => if isWhiteSpace c then [] else [c]
      | r' => c :: r'
      end
  end.

(** [s.trim()] *)
Definition trim (s : jsstring) : jsstring := trimEnd (trimStart s).

(** [s.padStart(n, fill)] for a one-character [fill]. *)
Definition padStart (n : nat) (fill : N) (s : jsstring) : jsstring :=
  replicate (n - length s) fill ++ s.

(** [s.split(sep)] for a one-character separator: the pieces between the
    separators, always at least one piece. *)
Fixpoint split (sep : N) (s : jsstring) : list jsstring :=
  match s with
  | [] => [[]]
  | c :: r =>
      if (c =? sep)%N then [] :: split sep r
      else match split sep r with
           | [] => [[c]]
           | p :: ps => (c :: p) :: ps
           end
  end.

(** Decimal digits. *)
Definition digitChar (d : N) : N := (48 + d)%N.

Fixpoint uintChars (u : Decimal.uint) : jsstring :=
  match u with
  | Decimal.Nil => []
  | Decimal.D0 u => digitChar 0 :: uintChars u
  | Decimal.D1 u => digitChar 1 :: uintChars u
  | Decimal.D2 u => digitChar 2 :: uintChars u
  | Decimal.D3 u => digitChar 3 :: uintChars u
  | Decimal.D4 u => digitChar 4 :: uintChars u
  | Decimal.D5 u => digitChar 5 :: uintChars u
  | Decimal.D6 u => digitChar 6 :: uintChars u
  | Decimal.D7 u => digitChar 7 :: uintChars u
  | Decimal.D8 u => digitChar 8 :: uintChars u
  | Decimal.D9 u => digitChar 9 :: uintChars u
  end.

(** *** Numbers

    A JavaScript number is a double.  The numbers of this development
    are the doubles whose value is a natural number, written as that
    natural number; a function that takes such a number expects a value a
    double can hold.  Every natural number below [2^53] is one. *)

(** [a / b] rounded to the nearest integer, ties to the even one. *)
Definition roundHalfEven (a b : N) : N :=
  let q := (a / b)%N in
  let r := (a mod b)%N in
  if (2 * r <? b)%N then q
  else if (b <? 2 * r)%N then (q + 1)%N
  else if N.even q then q else (q + 1)%N.

(** The double nearest to a natural number, ties to the even
    significand: 53 significant bits are kept. *)
Definition roundDouble (n : N) : N :=
  if (n <? 2 ^ 53)%N then n
  else let ulp := (2 ^ (N.log2 n - 52))%N in (roundHalfEven n ulp * ulp)%N.

(** The result of an operation whose exact value is [n]: the nearest
    double, and [None] where that is [Infinity] (from [2^1024] on). *)
Definition fl (n : N) : option N :=
  let r := roundDouble n in
  if (r <? 2 ^ 1024)%N then Some r else None.

(** [a * b] and [a + b] *)
Definition times (a b : N) : option N := fl (a * b).
Definition plus (a b : N) : option N := fl (a + b).

(** Whether [n / d] is below [2^e]. *)
Definition quotientBelow (n d : N) (e : Z) : bool :=
  if (0 <=? e)%Z then (n <? d * 2 ^ Z.to_N e)%N
  else (n * 2 ^ Z.to_N (- e) <? d)%N.

(** [Math.floor(n / d)] for a divisor that is not 0: the quotient is
    rounded to 53 significant bits first ([e] is the exponent of its
    leading bit), then cut off. *)
Definition floorDiv (n d : N) : N :=
  if (n =? 0)%N then 0%N
  else
    let e0 := (Z.of_N (N.log2 n) - Z.of_N (N.log2 d))%Z in
    let e := if quotientBelow n d e0 then (e0 - 1)%Z else e0 in
    let shift := (52 - e)%Z in
    if (0 <=? shift)%Z
    then (roundHalfEven (n * 2 ^ Z.to_N shift) d / 2 ^ Z.to_N shift)%N
    else (roundHalfEven n (d * 2 ^ Z.to_N (- shift)) * 2 ^ Z.to_N (- shift))%N.

(** The decimal numeral of a natural number. *)
Definition decimal (n : N) : jsstring := uintChars (N.to_uint n).

(** The search of [Number::toString] for the decimal with the fewest
    significant digits that still denotes the double [x]: with [unit] the
    weight of the last digit kept, the multiples of [unit] around [x] are
    tried, the nearer one first, and [unit] shrinks until one fits. *)
Fixpoint shortestFrom (x unit : N) (fuel : nat) : N :=
  match fuel with
  | O => x
  | S fuel' =>
      let lo := (x / unit * unit)%N in
      let hi := (lo + unit)%N in
      let okLo := (roundDouble lo =? x)%N in
      let okHi := (roundDouble hi =? x)%N in
      if okLo && okHi then
        if (x - lo <? hi - x)%N then lo
        else if (hi - x <? x - lo)%N then hi
        else if N.even (x / unit) then lo else hi
      else if okLo then lo
      else if okHi then hi
      else shortestFrom x (unit / 10)%N fuel'
  end.

(** Below [2^53] every digit counts; from there on the search runs. *)
Definition shortest (x : N) : N :=
  if (x <? 2 ^ 53)%N then x
  else
    let nd := length (decimal x) in
    shortestFrom x (10 ^ N.of_nat (nd - 1))%N nd.

Fixpoint dropTrailingZeros (s : jsstring) : jsstring :=
  match s with
  | [] => []
  | c :: r =>
      match dropTrailingZeros r with
      | [] => if (c =? digitChar 0)%N then [] else [c]
      | r' => c :: r'
      end
  end.

(** [x.toString()]: the shortest decimal that denotes [x], written out in
    full below [1e21] and in exponent notation from there on. *)
Definition toString (x : N) : jsstring :=
  let v := shortest x in
  let ds := decimal v in
  if (v <? 10 ^ 21)%N then ds
  else
    let exponent := decimal (N.of_nat (length ds - 1)) in
    match dropTrailingZeros ds with
    | [] => ds
    | [d] => d :: lit "e+" ++ exponent
    | d :: rest => d :: lit "." ++ rest ++ lit "e+" ++ exponent
    end.

Fixpoint charsUint (s : jsstring) : option Decimal.uint :=
  match s with
  | [] => Some Decimal.Nil
  | c :: r =>
      match charsUint r with
      | None => None
      | Some u =>
          if (c =? 48)%N then Some (Decimal.D0 u)
          else if (c =? 49)%N then Some (Decimal.D1 u)
          else if (c =? 50)%N then Some (Decimal.D2 u)
          else if (c =? 51)%N then Some (Decimal.D3 u)
          else if (c =? 52)%N then Some (Decimal.D4 u)
          else if (c =? 53)%N then Some (Decimal.D5 u)
          else if (c =? 54)%N then Some (Decimal.D6 u)
          else if (c =? 55)%N then Some (Decimal.D7 u)
          else if (c =? 56)%N then Some (Decimal.D8 u)
          else if (c =? 57)%N then Some (Decimal.D9 u)
          else None
      end
  end.

(** [Number(s)] on the fragment this development needs: surrounding
    white space is skipped, the empty string is [0], and a run of decimal
    digits is the double nearest to its value (leading zeros allowed).
    [None] stands for every other result: [Infinity], [NaN], and the
    value of a literal with a sign, a fraction, an exponent or a radix
    prefix, none of which is modelled. *)
Definition Number (s : jsstring) : option N :=
  match charsUint (trim s) with
  | Some u => fl (N.of_uint u)
  | None => None
  end.

(** Strings without white space, and strings without a given character. *)
Definition solid (s : jsstring) : Prop :=
  Forall (fun c => isWhiteSpace c = false) s.

Definition free (sep : N) (s : jsstring) : Prop :=
  Forall (fun c => (c =? sep)%N = false) s.

(** Strings of white space only. *)
Definition blank (s : jsstring) : Prop :=
  Forall (fun c => isWhiteSpace c = true) s.

End JS.

(** ** YouTube URL validation and timestamp utilities *)

Module YouTube.
Import JS.

Record YouTubeVideoInfo := {
  videoId : jsstring;
  url : jsstring;
  isValid : bool;
  error : option string
}.

(** Removes [prefix] from the front of [s], if it is there. *)
Fixpoint stripPrefix (prefix s : jsstring) : option jsstring :=
  match prefix, s with
  | [], _ => Some s
  | p :: ps, c :: r => if (c =? p)%N then stripPrefix ps r else None
  | _ :: _, [] => None
  end.

(** The longest prefix of [s] without the character [stop]: what a
    greedy [[^stop]*] consumes. *)
Fixpoint takeUntil (stop : N) (s : jsstring) : jsstring :=
  match s with
  | [] => []
  | c :: r => if (c =? stop)%N then [] else c :: takeUntil stop r
  end.

(** A greedy [([^stop]+)] at the front of [s]: the group, when it is not
    empty. *)
Definition groupUntil (stop : N) (s : jsstring) : option jsstring :=
  match takeUntil stop s with
  | [] => None
  | g => Some g
  end.

(** [s.match(re)] for a pattern without alternatives after its first
    position: the attempt [here] is made at every start position, left to
    right, and the first success wins. *)
Fixpoint firstMatch (here : jsstring -> option jsstring) (s : jsstring)
  : option jsstring :=
  match here s with
  | Some g => Some g
  | None =>
      match s with
      | [] => None
      | _ :: r => firstMatch here r
      end
  end.

Definition chQuestion : N := 63.
Definition chAmp : N := 38.
Definition chColon : N := 58.

(** [/[?&]v=([^&]+)/] at the front of [s]. *)
Definition watchHere (s : jsstring) : option jsstring :=
  match s with
  | c :: r =>
      if (c =? chQuestion)%N || (c =? chAmp)%N then
        match stripPrefix (lit "v=") r with
        | Some rest => groupUntil chAmp rest
        | None => None
        end
      else None
  | [] => None
  end.

(** [/youtu\.be\/([^?]+)/] at the front of [s]. *)
Definition shortHere (s : jsstring) : option jsstring :=
  match stripPrefix (lit "youtu.be/") s with
  | Some rest => groupUntil chQuestion rest
  | None => None
  end.

(** [/youtube\.com\/embed\/([^?]+)/] at the front of [s]. *)
Definition embedHere (s : jsstring) : option jsstring :=
  match stripPrefix (lit "youtube.com/embed/") s with
  | Some rest => groupUntil chQuestion rest
  | None => None
  end.

(** The class [[a-zA-Z0-9_-]]. *)
Definition isIdChar (c : N) : bool :=
  ((97 <=? c) && (c <=? 122))%N || ((65 <=? c) && (c <=? 90))%N
  || ((48 <=? c) && (c <=? 57))%N || (c =? 95)%N || (c =? 45)%N.

(** [/^[a-zA-Z0-9_-]{11}$/.test(s)] *)
Definition isVideoId (s : jsstring) : bool :=
  (length s =? 11)%nat && forallb isIdChar s.

Definition extractVideoId (url : jsstring) : option jsstring :=
  match url with
  | [] => None
  | _ =>
      let url := trim url in
      match firstMatch watchHere url with
      | Some g => Some g
      | None =>
          match firstMatch shortHere url with
          | Some g => Some g
          | None =>
              match firstMatch embedHere url with
              | Some g => Some g
              | None => if isVideoId url then Some url else None
              end
          end
      end
  end.

(** [!videoId]: [null] and the empty string are falsy. *)
Definition falsy (v : option jsstring) : bool :=
  match v with
  | None | Some [] => true
  | Some _ => false
  end.

Definition validateYouTubeUrl (url : jsstring) : YouTubeVideoInfo :=
  let videoId := extractVideoId url in
  if falsy videoId then
    {| videoId := []; url := url; isValid := false;
       error := Some "Invalid YouTube URL. Please provide a valid YouTube video link." |}
  else
    let videoId := default [] videoId in
    if negb (isVideoId videoId) then
      {| videoId := videoId; url := url; isValid := false;
         error := Some "Invalid video ID format." |}
    else
      {| videoId := videoId;
         url := lit "https://www.youtube.com/watch?v=" ++ videoId;
         isValid := true; error := None |}.

(** [None] where a part is outside the numbers modelled ([Number]) or
    the arithmetic leaves them. *)
Definition timestampToSeconds (timestamp : jsstring) : option N :=
  let parts := map Number (split chColon timestamp) in
  match parts with
  | [p0; p1] =>
      m ← p0; s ← p1;
      minutes ← times m 60;
      plus minutes s
  | [p0; p1; p2] =>
      h ← p0; m ← p1; s ← p2;
      hours ← times h 3600;
      minutes ← times m 60;
      sum ← plus hours minutes;
      plus sum s
  | _ => Some 0%N
  end.

(** The remainders [%] are exact; the divisions round before
    [Math.floor] cuts. *)
Definition secondsToTimestamp (seconds : N) : jsstring :=
  let hours := floorDiv seconds 3600 in
  let minutes := floorDiv (seconds mod 3600) 60 in
  let secs := (seconds mod 60)%N in
  if (0 <? hours)%N then
    toString hours ++ [chColon] ++ padStart 2 (digitChar 0) (toString minutes)
      ++ [chColon] ++ padStart 2 (digitChar 0) (toString secs)
  else
    toString minutes ++ [chColon] ++ padStart 2 (digitChar 0) (toString secs).

(** The alphabet of a video id: ASCII letters, digits, [-] and [_]. *)
Definition idAlphabet (c : N) : Prop :=
  (97 <= c <= 122 \/ 65 <= c <= 90 \/ 48 <= c <= 57 \/ c = 95 \/ c = 45)%N.

(** The part of [extractVideoId] after the trim. *)
Definition extractTrimmed (url : jsstring) : option jsstring :=
  match firstMatch watchHere url with
  | Some g => Some g
  | None =>
      match firstMatch shortHere url with
      | Some g => Some g
      | None =>
          match firstMatch embedHere url with
          | Some g => Some g
          | None => if isVideoId url then Some url else None
          end
      end
  end.

Definition sampleId : jsstring := lit "dQw4w9WgXcQ".

End YouTube.

(** ** The application store ([useAppStore])

    The state of the zustand store and its actions.  [set] merges the
    object an action returns into the current state ([Object.assign]), so
    an action is a function from the state to a partial state.  Numbers
    held in the store (progress, durations, epoch milliseconds,
    counters) are doubles with integer values, written as integers. *)

Module Store.

Abbreviation number := Z.

(** [x + 1] on a double with an integer value: the sum is rounded to the
    nearest double, so from [2^53] on it can be [x] again. *)
Definition addOne (x : number) : number :=
  (Z.sgn (x + 1) * Z.of_N (JS.roundDouble (Z.abs_N (x + 1))))%Z.

Inductive AgentStatus := idle | running | completed | error.

Record Agent := {
  id : string;
  name : string;
  status : AgentStatus;
  icon : option string;
  progress : option number;
  result : option string;
  duration : option number
}.

(** [Partial<Agent>]: a key is absent ([None]) or carries a value; for an
    optional field of [Agent] that value may itself be [undefined]. *)
Record PartialAgent := {
  p_id : option string;
  p_name : option string;
  p_status : option AgentStatus;
  p_icon : option (option string);
  p_progress : option (option number);
  p_result : option (option string);
  p_duration : option (option number)
}.

Inductive Mode := quick | standard | research | educational.

Record Summary := {
  s_id : string;
  s_videoId : string;
  s_videoTitle : string;
  s_videoUrl : string;
  s_thumbnail : option string;
  s_mode : Mode;
  s_content : string;
  s_timestamps : option (list (string * string));
  s_citations : option (list string);
  s_createdAt : number;
  s_duration : option number
}.

Record ApiKeys := {
  openrouter : option string;
  googleAi : option string
}.

Inductive Backend := python | nodejs | go | rust | ruby.

Record Features := {
  factChecking : bool;
  webResearch : bool;
  citations : bool;
  translation : bool
}.

Record AppSettings := {
  backend : Backend;
  defaultMode : Mode;
  features : Features
}.

Record PartialAppSettings := {
  p_backend : option Backend;
  p_defaultMode : option Mode;
  p_features : option Features
}.

Record Stats := {
  totalSummaries : number;
  totalQuestions : number;
  totalExports : number
}.

Inductive StatKey := kTotalSummaries | kTotalQuestions | kTotalExports.

(** The data fields of [AppState]. *)
Record AppState := {
  isProcessing : bool;
  currentVideoUrl : option string;
  currentSummary : option Summary;
  agents : list Agent;
  summaries : list Summary;
  apiKeys : ApiKeys;
  settings : AppSettings;
  stats : Stats
}.

(** The object an action hands to [set]: the keys it names. *)
Record PartialAppState := {
  n_isProcessing : option bool;
  n_currentVideoUrl : option (option string);
  n_currentSummary : option (option Summary);
  n_agents : option (list Agent);
  n_summaries : option (list Summary);
  n_apiKeys : option ApiKeys;
  n_settings : option AppSettings;
  n_stats : option Stats
}.

Definition noKeys : PartialAppState :=
  {| n_isProcessing := None; n_currentVideoUrl := None;
     n_currentSummary := None; n_agents := None; n_summaries := None;
     n_apiKeys := None; n_settings := None; n_stats := None |}.

(** [Object.assign({}, state, next)] *)
Definition assign (state : AppState) (next : PartialAppState) : AppState :=
  {| isProcessing := default (isProcessing state) (n_isProcessing next);
     currentVideoUrl := default (currentVideoUrl state) (n_currentVideoUrl next);
     currentSummary := default (currentSummary state) (n_currentSummary next);
     agents := default (agents state) (n_agents next);
     summaries := default (summaries state) (n_summaries next);
     apiKeys := default (apiKeys state) (n_apiKeys next);
     settings := default (settings state) (n_settings next);
     stats := default (stats state) (n_stats next) |}.

(** [set(partial)] with a function argument; an object argument is the
    constant function. *)
Definition set (partial : AppState -> PartialAppState) (state : AppState)
  : AppState :=
  assign state (partial state).

Definition mkAgent (i n : string) : Agent :=
  {| id := i; name := n; status := idle; icon := None; progress := None;
     result := None; duration := None |}.

Definition defaultAgents : list Agent :=
  [ mkAgent "supervisor" "Supervisor Agent";
    mkAgent "extractor" "Extractor Agent";
    mkAgent "summarizer" "Summarizer Agent";
    mkAgent "research" "Research Agent";
    mkAgent "fact_checker" "Fact-Checker Agent";
    mkAgent "citation" "Citation Agent";
    mkAgent "qa" "Q&A Agent";
    mkAgent "export" "Export Agent" ].

Definition initialState : AppState :=
  {| isProcessing := false;
     currentVideoUrl := None;
     currentSummary := None;
     agents := defaultAgents;
     summaries := [];
     apiKeys := {| openrouter := None; googleAi := None |};
     settings :=
       {| backend := python; defaultMode := standard;
          features := {| factChecking := true; webResearch := true;
                         citations := true; translation := false |} |};
     stats := {| totalSummaries := 0; totalQuestions := 0; totalExports := 0 |} |}.

(** [{ ...agent, ...updates }] *)
Definition spreadAgent (agent : Agent) (updates : PartialAgent) : Agent :=
  {| id := default (id agent) (p_id updates);
     name := default (name agent) (p_name updates);
     status := default (status agent) (p_status updates);
     icon := default (icon agent) (p_icon updates);
     progress := default (progress agent) (p_progress updates);
     result := default (result agent) (p_result updates);
     duration := default (duration agent) (p_duration updates) |}.

Definition setProcessing (b : bool) : AppState -> AppState :=
  set (fun _ => {| n_isProcessing := Some b; n_currentVideoUrl := None;
                   n_currentSummary := None; n_agents := None;
                   n_summaries := None; n_apiKeys := None;
                   n_settings := None; n_stats := None |}).

Definition setCurrentVideoUrl (u : option string) : AppState -> AppState :=
  set (fun _ => {| n_isProcessing := None; n_currentVideoUrl := Some u;
                   n_currentSummary := None; n_agents := None;
                   n_summaries := None; n_apiKeys := None;
                   n_settings := None; n_stats := None |}).

Definition setCurrentSummary (s : option Summary) : AppState -> AppState :=
  set (fun _ => {| n_isProcessing := None; n_currentVideoUrl := None;
                   n_currentSummary := Some s; n_agents := None;
                   n_summaries := None; n_apiKeys := None;
                   n_settings := None; n_stats := None |}).

Definition updateAgent (agentId : string) (updates : PartialAgent)
  : AppState -> AppState :=
  set (fun state =>
    {| n_isProcessing := None; n_currentVideoUrl := None;
       n_currentSummary := None;
       n_agents := Some (map (fun agent =>
                     if String.eqb (id agent) agentId
                     then spreadAgent agent updates else agent)
                   (agents state));
       n_summaries := None; n_apiKeys := None; n_settings := None;
       n_stats := None |}).

Definition resetAgents : AppState -> AppState :=
  set (fun _ =>
    {| n_isProcessing := None; n_currentVideoUrl := None;
       n_currentSummary := None;
       n_agents := Some (map (fun agent =>
                     spreadAgent agent
                       {| p_id := None; p_name := None; p_status := Some idle;
                          p_icon := None; p_progress := None;
                          p_result := None; p_duration := None |})
                   defaultAgents);
       n_summaries := None; n_apiKeys := None; n_settings := None;
       n_stats := None |}).

Definition addSummary (summary : Summary) : AppState -> AppState :=
  set (fun state =>
    {| n_isProcessing := None; n_currentVideoUrl := None;
       n_currentSummary := None; n_agents := None;
       n_summaries := Some (summary :: summaries state);
       n_apiKeys := None; n_settings := None; n_stats := None |}).

Definition deleteSummary (i : string) : AppState -> AppState :=
  set (fun state =>
    {| n_isProcessing := None; n_currentVideoUrl := None;
       n_currentSummary := None; n_agents := None;
       n_summaries :=
         Some (filter (fun s => negb (String.eqb (s_id s) i) = true)
                 (summaries state));
       n_apiKeys := None; n_settings := None; n_stats := None |}).

(** The argument of [setApiKeys], an object of type [ApiKeys]: a key is
    absent ([None]), or present with a string or with [undefined]. *)
Record ApiKeysGiven := {
  given_openrouter : option (option string);
  given_googleAi : option (option string)
}.

(** [{ ...state.apiKeys, ...apiKeys }]: a key that [apiKeys] carries
    replaces the stored one, also when its value is [undefined]. *)
Definition setApiKeys (keys : ApiKeysGiven) : AppState -> AppState :=
  set (fun state =>
    {| n_isProcessing := None; n_currentVideoUrl := None;
       n_currentSummary := None; n_agents := None; n_summaries := None;
       n_apiKeys := Some
         {| openrouter := default (openrouter (apiKeys state))
                                  (given_openrouter keys);
            googleAi := default (googleAi (apiKeys state))
                                (given_googleAi keys) |};
       n_settings := None; n_stats := None |}).

Definition updateSettings (newSettings : PartialAppSettings)
  : AppState -> AppState :=
  set (fun state =>
    let old := settings state in
    {| n_isProcessing := None; n_currentVideoUrl := None;
       n_currentSummary := None; n_agents := None; n_summaries := None;
       n_apiKeys := None;
       n_settings := Some
         {| backend := default (backend old) (p_backend newSettings);
            defaultMode := default (defaultMode old) (p_defaultMode newSettings);
            features := default (features old) (p_features newSettings) |};
       n_stats := None |}).

Definition incrementStat (stat : StatKey) : AppState -> AppState :=
  set (fun state =>
    let st := stats state in
    {| n_isProcessing := None; n_currentVideoUrl := None;
       n_currentSummary := None; n_agents := None; n_summaries := None;
       n_apiKeys := None; n_settings := None;
       n_stats := Some
         match stat with
         | kTotalSummaries =>
             {| totalSummaries := addOne (totalSummaries st);
                totalQuestions := totalQuestions st;
                totalExports := totalExports st |}
         | kTotalQuestions =>
             {| totalSummaries := totalSummaries st;
                totalQuestions := addOne (totalQuestions st);
                totalExports := totalExports st |}
         | kTotalExports =>
             {| totalSummaries := totalSummaries st;
                totalQuestions := totalQuestions st;
                totalExports := addOne (totalExports st) |}
         end |}).

(** A progress report as the client receives it for the extractor. *)
Definition extractorRunning : PartialAgent :=
  {| p_id := None; p_name := None; p_status := Some running;
     p_icon := None; p_progress := Some (Some 20%Z); p_result := None;
     p_duration := None |}.

End Store.

(** ** What the store persists *)

Module Persist.
Import Store.

(** The slice of the state that [persist] writes to storage. *)
Record PersistedState := {
  saved_summaries : list Summary;
  saved_apiKeys : ApiKeys;
  saved_settings : AppSettings;
  saved_stats : Stats
}.

(** The [partialize] option of the store. *)
Definition partialize (state : AppState) : PersistedState :=
  {| saved_summaries := summaries state;
     saved_apiKeys := apiKeys state;
     saved_settings := settings state;
     saved_stats := stats state |}.

(** Two partial updates in one, the keys of the later one winning:
    [{ ...first, ...second }]. *)
Definition mergeUpdates (first second : PartialAgent) : PartialAgent :=
  let later {A} (x y : option A) : option A :=
    match y with Some _ => y | None => x end in
  {| p_id := later (p_id first) (p_id second);
     p_name := later (p_name first) (p_name second);
     p_status := later (p_status first) (p_status second);
     p_icon := later (p_icon first) (p_icon second);
     p_progress := later (p_progress first) (p_progress second);
     p_result := later (p_result first) (p_result second);
     p_duration := later (p_duration first) (p_duration second) |}.

(** A summary with the given id, for examples. *)
Definition sampleSummary (i : string) : Summary :=
  {| s_id := i; s_videoId := "dQw4w9WgXcQ"; s_videoTitle := "A video";
     s_videoUrl := "https://www.youtube.com/watch?v=dQw4w9WgXcQ";
     s_thumbnail := None; s_mode := quick; s_content := "Summary";
     s_timestamps := None; s_citations := None; s_createdAt := 0%Z;
     s_duration := None |}.

(** [stats[stat]] *)
Definition statOf (stat : StatKey) (st : Stats) : number :=
  match stat with
  | kTotalSummaries => totalSummaries st
  | kTotalQuestions => totalQuestions st
  | kTotalExports => totalExports st
  end.

Global Instance StatKey_eq_dec : EqDecision StatKey.
Proof. solve_decision. Defined.

End Persist.

(** ** The settings page ([SettingsPage]) *)

Module SettingsPage.
Import Store.

(** The form's copy of the two keys, [tempKeys]. *)
Record TempKeys := {
  t_openrouter : string;
  t_googleAi : string
}.

(** The initial value of [tempKeys]: [apiKeys.openrouter || ''] and
    [apiKeys.googleAi || '']. *)
Definition initialTempKeys (keys : ApiKeys) : TempKeys :=
  {| t_openrouter := default "" (openrouter keys);
     t_googleAi := default "" (googleAi keys) |}.

(** [handleSaveKeys], as far as the store goes (the [saved] flag is local
    to the page). *)
Definition handleSaveKeys (tempKeys : TempKeys) : AppState -> AppState :=
  setApiKeys {| given_openrouter := Some (Some (t_openrouter tempKeys));
                given_googleAi := Some (Some (t_googleAi tempKeys)) |}.

(** The feature ids the page offers a toggle for. *)
Inductive FeatureKey := kFactChecking | kWebResearch | kCitations | kTranslation.

(** [features[feature]] *)
Definition getFeature (feature : FeatureKey) (fs : Features) : bool :=
  match feature with
  | kFactChecking => factChecking fs
  | kWebResearch => webResearch fs
  | kCitations => citations fs
  | kTranslation => translation fs
  end.

(** [{ ...features, [feature]: value }] *)
Definition setFeature (feature : FeatureKey) (value : bool) (fs : Features)
  : Features :=
  match feature with
  | kFactChecking =>
      {| factChecking := value; webResearch := webResearch fs;
         citations := citations fs; translation := translation fs |}
  | kWebResearch =>
      {| factChecking := factChecking fs; webResearch := value;
         citations := citations fs; translation := translation fs |}
  | kCitations =>
      {| factChecking := factChecking fs; webResearch := webResearch fs;
         citations := value; translation := translation fs |}
  | kTranslation =>
      {| factChecking := factChecking fs; webResearch := webResearch fs;
         citations := citations fs; translation := value |}
  end.

Global Instance FeatureKey_eq_dec : EqDecision FeatureKey.
Proof. solve_decision. Defined.

(** [handleFeatureToggle], with the page's [settings] being those of the
    store. *)
Definition handleFeatureToggle (feature : FeatureKey) (state : AppState)
  : AppState :=
  let fs := features (settings state) in
  updateSettings
    {| p_backend := None; p_defaultMode := None;
       p_features := Some (setFeature feature (negb (getFeature feature fs)) fs) |}
    state.

End SettingsPage.

(** ** The history page ([HistoryPage]) *)

Module HistoryPage.

(** The updater [toggleFavorite] hands to [setFavorites]: a copy of the
    set without [id] when it has it, with [id] when it does not. *)
Definition toggleFavorite (id : string) (prev : gset string) : gset string :=
  if decide (id ∈ prev) then prev ∖ {[id]} else prev ∪ {[id]}.

End HistoryPage.

(** ** The chat page ([ChatPage]) *)

Module ChatPage.
Import JS Store.

Inductive Role := user | assistant.

Record Message := {
  m_id : jsstring;
  m_role : Role;
  m_content : jsstring;
  m_timestamp : N;
  m_citations : option (list (jsstring * jsstring))
}.

(** The page's own state: the messages, the input field and the typing
    flag. *)
Record ChatState := {
  messages : list Message;
  input : jsstring;
  isTyping : bool
}.

(** [handleSend] up to the timer it starts.  [Date.now()] is read twice,
    for the id and for the timestamp; the two readings are arguments.
    The second component tells whether the timer was started. *)
Definition handleSend (idNow stampNow : N) (chat : ChatState)
  : ChatState * bool :=
  match trim (input chat) with
  | [] => (chat, false)
  | _ =>
      let userMessage :=
        {| m_id := toString idNow; m_role := user; m_content := input chat;
           m_timestamp := stampNow; m_citations := None |} in
      ({| messages := messages chat ++ [userMessage]; input := [];
          isTyping := true |}, true)
  end.

(** The timer's callback, again with the two readings of [Date.now()]:
    the canned answer is appended and the question is counted. *)
Definition assistantReply (idNow stampNow : N) (chat : ChatState)
    (state : AppState) : ChatState * AppState :=
  let assistantMessage :=
    {| m_id := toString (roundDouble (idNow + 1)); m_role := assistant;
       m_content := lit "I'm an AI assistant powered by RAG and LangGraph agents. I can answer questions about the video you've summarized. Once you connect the backend, I'll provide context-aware responses with citations and timestamps.";
       m_timestamp := stampNow;
       m_citations := Some [(lit "2:34", lit "Relevant section from video");
                            (lit "5:12", lit "Supporting information")] |} in
  ({| messages := messages chat ++ [assistantMessage]; input := input chat;
      isTyping := false |},
   incrementStat kTotalQuestions state).

(** A page with no messages yet and [text] in the input field. *)
Definition typed (text : jsstring) : ChatState :=
  {| messages := []; input := text; isTyping := false |}.

End ChatPage.

(** ** Embed and timestamp URLs *)

Module YouTubeUrls.
Import JS YouTube.

(** [URLSearchParams]: the list of name and value pairs. *)
Abbreviation SearchParams := (list (jsstring * jsstring)).

(** [params.set(name, value)]: the first pair of that name gets the value
    and later ones go; without one the pair is appended. *)
Fixpoint paramsSet (name value : jsstring) (params : SearchParams)
  : SearchParams :=
  match params with
  | [] => [(name, value)]
  | (n, v) :: rest =>
      if decide (n = name)
      then (name, value) :: filter (fun p => p.1 <> name) rest
      else (n, v) :: paramsSet name value rest
  end.

Definition hexDigit (d : N) : N :=
  if (d <? 10)%N then (48 + d)%N else (55 + d)%N.

(** The form encoding of one ASCII character: letters, digits and
    [*-._] stay, a space becomes [+], the rest is escaped. *)
Definition formEncodeChar (c : N) : jsstring :=
  if ((97 <=? c) && (c <=? 122))%N || ((65 <=? c) && (c <=? 90))%N
     || ((48 <=? c) && (c <=? 57))%N
     || (c =? 42)%N || (c =? 45)%N || (c =? 46)%N || (c =? 95)%N
  then [c]
  else if (c =? 32)%N then [43%N]
  else [37%N; hexDigit (c / 16); hexDigit (c mod 16)].

Definition formEncode (s : jsstring) : jsstring :=
  flat_map formEncodeChar s.

(** [params.toString()] for names and values in ASCII, which is all the
    functions below put in. *)
Fixpoint paramsToString (params : SearchParams) : jsstring :=
  match params with
  | [] => []
  | [(n, v)] => formEncode n ++ lit "=" ++ formEncode v
  | (n, v) :: rest =>
      formEncode n ++ lit "=" ++ formEncode v ++ lit "&" ++ paramsToString rest
  end.

(** The [options] of [getEmbedUrl]; [start] and [end] (here [stop]) are
    natural numbers. *)
Record EmbedOptions := {
  autoplay : option bool;
  start : option N;
  stop : option N
}.

(** Truthiness of an optional number: [undefined] and [0] are falsy. *)
Definition truthyNumber (n : option N) : option N :=
  match n with
  | Some 0%N | None => None
  | Some n => Some n
  end.

Definition getEmbedUrl (videoId : jsstring) (options : option EmbedOptions)
  : jsstring :=
  let params : SearchParams := [] in
  let params :=
    match options with
    | Some {| autoplay := Some true |} => paramsSet (lit "autoplay") (lit "1") params
    | _ => params
    end in
  let params :=
    match truthyNumber (options ≫= start) with
    | Some n => paramsSet (lit "start") (toString n) params
    | None => params
    end in
  let params :=
    match truthyNumber (options ≫= stop) with
    | Some n => paramsSet (lit "end") (toString n) params
    | None => params
    end in
  let queryString := paramsToString params in
  lit "https://www.youtube.com/embed/" ++ videoId ++
  match queryString with
  | [] => []
  | _ => lit "?" ++ queryString
  end.

(** [getTimestampUrl]: a string timestamp is converted first, a number is
    taken as the seconds.  [None] where [timestampToSeconds] has none,
    that is where the source writes [NaN], [Infinity] or a number that is
    not modelled into the URL. *)
Definition getTimestampUrl (videoId : jsstring) (timestamp : jsstring + N)
  : option jsstring :=
  let seconds :=
    match timestamp with
    | inl text => timestampToSeconds text
    | inr n => Some n
    end in
  match seconds with
  | Some seconds =>
      Some (lit "https://www.youtube.com/watch?v=" ++ videoId ++ lit "&t="
            ++ toString seconds ++ lit "s")
  | None => None
  end.

(** The valid result for a video id. *)
Definition canonicalUrlOf (vid : jsstring) : YouTubeVideoInfo :=
  {| videoId := vid; url := lit "https://www.youtube.com/watch?v=" ++ vid;
     isValid := true; error := None |}.

End YouTubeUrls.

(** ** Workflow configuration and stage resolution *)

Module Workflow.
Export Store (Mode, quick, standard, research, educational, Features,
              factChecking, webResearch, citations, translation).

(** [WORKFLOW_CONFIGS] of [app/config.py], as the backend documentation
    quotes it: per mode the agents that run, the length limit and the
    time budget in seconds. *)
Record WorkflowConfig := {
  agents : list string;
  max_length : N;
  timeout : N
}.

Definition WORKFLOW_CONFIGS (mode : Mode) : WorkflowConfig :=
  match mode with
  | quick =>
      {| agents := ["extractor"; "summarizer"];
         max_length := 500; timeout := 30 |}
  | standard =>
      {| agents := ["extractor"; "summarizer"; "citation"];
         max_length := 2000; timeout := 60 |}
  | research =>
      {| agents := ["extractor"; "summarizer"; "research"; "fact_checker";
                    "citation"];
         max_length := 5000; timeout := 180 |}
  | educational =>
      {| agents := ["extractor"; "summarizer"; "citation"];
         max_length := 3000; timeout := 120 |}
  end.

Inductive Stage := Extract | Summarize | Research | FactCheck | Cite.

Global Instance Stage_eq_dec : EqDecision Stage.
Proof. solve_decision. Defined.

(** The stage an agent of the table carries out. *)
Definition agentStage (agent : string) : option Stage :=
  if String.eqb agent "extractor" then Some Extract
  else if String.eqb agent "summarizer" then Some Summarize
  else if String.eqb agent "research" then Some Research
  else if String.eqb agent "fact_checker" then Some FactCheck
  else if String.eqb agent "citation" then Some Cite
  else None.

(** The table row of a mode, as stages. *)
Definition modeRow (mode : Mode) : list Stage :=
  omap agentStage (agents (WORKFLOW_CONFIGS mode)).

(** Modelled from the spec: the flag to stage addition rule of the stage
    resolver (the workflow graph, [app/graphs/summary_graph.py], is not
    among the sources).  [webResearch] adds Research, [factChecking] adds
    Fact-Check, [citations] adds Cite; no flag stands for a mandatory
    stage. *)
Definition flagStage (features : Features) (stage : Stage) : bool :=
  match stage with
  | Research => webResearch features
  | FactCheck => factChecking features
  | Cite => citations features
  | Extract | Summarize => false
  end.

(** Modelled from the spec: the order in which the engine runs the
    stages it has selected (Extract, Summarize, then Research before
    Fact-Check, then Cite). *)
Definition pipelineOrder : list Stage :=
  [Extract; Summarize; Research; FactCheck; Cite].

(** Modelled from the spec: the stage resolver of the orchestration
    engine, which is not among the sources.  The mode sets the default
    stages, the flags extend them, and the result is evaluated once per
    run as an ordered list. *)
Definition resolveStages (mode : Mode) (features : Features) : list Stage :=
  filter (fun stage => stage ∈ modeRow mode \/ flagStage features stage = true)
         pipelineOrder.

Definition noFeatures : Features :=
  {| factChecking := false; webResearch := false; citations := false;
     translation := false |}.

End Workflow.

(** ** Pipeline state and orchestration engine *)

Module Engine.
Import Workflow.

(** Modelled from the spec: the products of the stages that the pipeline
    state of section 3 holds; the code that builds them ([app/agents/])
    is not among the sources.  The confidence of a fact check, a
    floating-point number between 0 and 1, is not represented. *)
Inductive VerificationStatus := verified | disputed | unverifiable.

Record SummaryDoc := {
  summaryText : string;
  sections : list string;
  bullets : list string
}.

Record Finding := {
  topic : string;
  findingSources : list string;
  note : string
}.

Record FactCheckEntry := {
  claim : string;
  verificationStatus : VerificationStatus;
  checkSources : list string
}.

(** Modelled from the spec: an entry of the stage trace, the append-only
    log of the stages a run went through. *)
Inductive TraceStatus := stageCompleted | stageFailed.

Record TraceEntry := {
  stageName : Stage;
  traceStatus : TraceStatus;
  startedAt : N;
  durationMs : N
}.

(** Modelled from the spec: the pipeline state of section 3, the record
    threaded through all stages; the backend keeps it in code that is not
    among the sources.  A transcript segment and a citation are a time
    and a text. *)
Record PipelineState := {
  contentId : string;
  sourceUrl : string;
  mode : Mode;
  features : Features;
  transcript : option (list (N * string));
  summary : option SummaryDoc;
  researchFindings : option (list Finding);
  factChecks : option (list FactCheckEntry);
  citationList : list (N * string);
  stageTrace : list TraceEntry
}.

Definition withTrace (st : PipelineState) (tr : list TraceEntry)
  : PipelineState :=
  {| contentId := contentId st; sourceUrl := sourceUrl st; mode := mode st;
     features := features st; transcript := transcript st;
     summary := summary st; researchFindings := researchFindings st;
     factChecks := factChecks st; citationList := citationList st;
     stageTrace := tr |}.

(** Modelled from the spec: the state a run starts from, with identity
    and configuration set and nothing produced yet. *)
Definition initialState (cid src : string) (m : Mode) (f : Features)
  : PipelineState :=
  {| contentId := cid; sourceUrl := src; mode := m; features := f;
     transcript := None; summary := None; researchFindings := None;
     factChecks := None; citationList := []; stageTrace := [] |}.

(** Modelled from the spec: the errors a stage can end with, after the
    collaborator interfaces of section 6. *)
Inductive StageError :=
| NoTranscriptAvailable
| UnsupportedLanguage
| ProviderError
| RateLimited
| UpstreamError (cause : string).

(** Modelled from the spec: what one stage call yields, the enriched
    state or an error, together with the time the call took in
    milliseconds. *)
Inductive StageResult :=
| StageOk (st : PipelineState) (ms : N)
| StageFail (e : StageError) (ms : N).

(** Modelled from the spec: the terminal result of a run, each with the
    state reached. *)
Inductive Outcome :=
| Completed (st : PipelineState)
| Failed (stage : Stage) (e : StageError) (st : PipelineState)
| TimedOut (st : PipelineState).

Definition finalState (o : Outcome) : PipelineState :=
  match o with
  | Completed st | Failed _ _ st | TimedOut st => st
  end.

(** Modelled from the spec: Extract and Summarize are the mandatory
    stages, the others are optional. *)
Definition mandatory (stage : Stage) : bool :=
  match stage with
  | Extract | Summarize => true
  | Research | FactCheck | Cite => false
  end.

(** Modelled from the spec: appending an entry to the stage trace. *)
Definition logStage (stage : Stage) (status : TraceStatus) (start ms : N)
    (st : PipelineState) : PipelineState :=
  withTrace st
    (stageTrace st ++
     [{| stageName := stage; traceStatus := status; startedAt := start;
         durationMs := ms |}]).

Section Run.
(** The stages themselves ([app/agents/]) are not among the sources
    and call external providers; the engine takes them as given. *)
Variable stageFn : Stage -> PipelineState -> StageResult.

(** Modelled from the spec: the orchestration engine of section 4.5,
    which is not among the sources.  Stages run in order; a stage that
    would end after the budget is cut off and the state reached so
    far is returned as a timeout; a failing mandatory stage ends the
    run with its error; a failing optional stage is logged and the
    run goes on from the state it had.  The trace is the engine's: a
    stage cannot rewrite it. *)
Fixpoint runStages (budgetMs elapsed : N) (stages : list Stage)
    (st : PipelineState) : Outcome :=
  match stages with
  | [] => Completed st
  | stage :: rest =>
      match stageFn stage st with
      | StageOk st' ms =>
          if (budgetMs <? elapsed + ms)%N then TimedOut st
          else runStages budgetMs (elapsed + ms) rest
                 (logStage stage stageCompleted elapsed ms
                    (withTrace st' (stageTrace st)))
      | StageFail e ms =>
          if (budgetMs <? elapsed + ms)%N then TimedOut st
          else if mandatory stage
               then Failed stage e (logStage stage stageFailed elapsed ms st)
               else runStages budgetMs (elapsed + ms) rest
                      (logStage stage stageFailed elapsed ms st)
      end
  end.

(** Modelled from the spec: one run, from the resolved stage list, the
    mode's time budget ([timeout] is in seconds) and the initial state. *)
Definition runPipeline (cid src : string) (m : Mode) (f : Features)
  : Outcome :=
  runStages (timeout (WORKFLOW_CONFIGS m) * 1000) 0 (resolveStages m f)
    (initialState cid src m f).

End Run.

(** The stages a run went through, in order. *)
Definition executed (o : Outcome) : list Stage :=
  map stageName (stageTrace (finalState o)).

(** Citations are written by the Cite stage only. *)
Definition citeOwnsCitations
    (stageFn : Stage -> PipelineState -> StageResult) : Prop :=
  forall stage st st' ms,
    stage <> Cite -> stageFn stage st = StageOk st' ms ->
    citationList st' = citationList st.

(** Sample stages: every call succeeds in one second; Extract stores a
    transcript, Summarize a summary, Research and Fact-Check empty
    lists, and Cite adds one citation. *)
Definition sampleStages (stage : Stage) (st : PipelineState) : StageResult :=
  let st' :=
    {| contentId := contentId st; sourceUrl := sourceUrl st;
       mode := mode st; features := features st;
       transcript :=
         match stage with
         | Extract => Some [(0%N, "hello")]
         | _ => transcript st
         end;
       summary :=
         match stage with
         | Summarize =>
             Some {| summaryText := "greeting"; sections := [];
                     bullets := ["hello"] |}
         | _ => summary st
         end;
       researchFindings :=
         match stage with
         | Research => Some []
         | _ => researchFindings st
         end;
       factChecks :=
         match stage with
         | FactCheck => Some []
         | _ => factChecks st
         end;
       citationList :=
         match stage with
         | Cite => citationList st ++ [(0%N, "hello")]
         | _ => citationList st
         end;
       stageTrace := stageTrace st |} in
  StageOk st' 1000.

End Engine.

(** ** Rate limiter and request handler *)

Module RateLimit.
Import Workflow Engine.

(** Modelled from the spec: the configurable limit, a number of requests
    per window of seconds. *)
Record Config := {
  requests : N;
  windowSeconds : N
}.

(** The limits of the environment file: [RATE_LIMIT_REQUESTS] and
    [RATE_LIMIT_PERIOD]. *)
Definition defaultConfig : Config :=
  {| requests := 100; windowSeconds := 3600 |}.

(** Modelled from the spec: a client's counting window, when it was
    opened (in seconds) and how many requests it has let through. *)
Record Window := {
  opened : N;
  admitted : N
}.

(** Modelled from the spec: the two answers of [check]. *)
Inductive Verdict := allowed | rejected.

(** Modelled from the spec: the window that counts at time [now], the
    stored one while it is open, a new empty one once it has run out or
    when there is none. *)
Definition currentWindow (cfg : Config) (now : N) (w : option Window)
  : Window :=
  match w with
  | Some w =>
      if (now <? opened w + windowSeconds cfg)%N then w
      else {| opened := now; admitted := 0 |}
  | None => {| opened := now; admitted := 0 |}
  end.

(** Modelled from the spec: [check(clientId)] of the rate limiter
    ([app/middleware/rate_limit.py] and the counters of
    [app/tools/cache.py] are not among the sources), as a window counter
    keyed by client identity.  The time of the call is an argument.  A
    request is let through while the window has admitted fewer than
    [requests]; a rejected request is not counted. *)
Definition check (cfg : Config) (now : N) (clientId : string)
    (counters : gmap string Window) : Verdict * gmap string Window :=
  let w := currentWindow cfg now (counters !! clientId) in
  if (admitted w <? requests cfg)%N then
    (allowed,
     <[clientId := {| opened := opened w; admitted := admitted w + 1 |}]>
       counters)
  else (rejected, counters).

(** Modelled from the spec: what the caller gets back, a pipeline result
    or the rate limiter's own kind of error. *)
Inductive Response :=
| Served (o : Outcome)
| RateLimitExceeded.

(** The stages that ran to produce a response. *)
Definition stagesRun (r : Response) : list Stage :=
  match r with
  | Served o => executed o
  | RateLimitExceeded => []
  end.

Section Handler.
Variable stageFn : Stage -> PipelineState -> StageResult.
Variable cfg : Config.

(** Modelled from the spec: the entry point
    [summarize(contentId, mode, features, clientId)], whose code is not
    among the sources.  The rate limiter is asked first; only an
    allowed request reaches the engine.  The cache between the two is
    left out: it decides whether the engine runs, not what happens
    before it. *)
Definition summarize (now : N) (clientId cid src : string) (m : Mode)
    (f : Features) (counters : gmap string Window)
  : Response * gmap string Window :=
  match check cfg now clientId counters with
  | (allowed, counters') => (Served (runPipeline stageFn cid src m f), counters')
  | (rejected, counters') => (RateLimitExceeded, counters')
  end.

(** One client asking for the same summary at the given times, in
    turn. *)
Fixpoint replay (times : list N) (clientId cid src : string) (m : Mode)
    (f : Features) (counters : gmap string Window)
  : list Response * gmap string Window :=
  match times with
  | [] => ([], counters)
  | now :: later =>
      let '(r, counters') := summarize now clientId cid src m f counters in
      let '(rs, counters'') := replay later clientId cid src m f counters' in
      (r :: rs, counters'')
  end.

End Handler.

Definition isServed (r : Response) : bool :=
  match r with
  | Served _ => true
  | RateLimitExceeded => false
  end.

(** Which of [len] requests in one open window are served, when the
    window has admitted [k] so far and admits [n]. *)
Fixpoint served (n k : N) (len : nat) : list bool :=
  match len with
  | O => []
  | S len' =>
      if (k <? n)%N then true :: served n (k + 1) len'
      else false :: served n k len'
  end.

(** The limit of five requests a minute. *)
Definition fivePerMinute : Config := {| requests := 5; windowSeconds := 60 |}.

End RateLimit.

(** * Part II: properties *)

(** ** The store: [updateAgent] *)

Module StoreFacts.
Import Store.

(** What [set] leaves alone: a key the action does not name keeps its
    value. *)
Lemma assign_noKeys state : assign state noKeys = state.
Proof. by destruct state. Qed.

Lemma updateAgent_agents agentId updates state :
  agents (updateAgent agentId updates state) =
  map (fun agent => if String.eqb (id agent) agentId
                    then spreadAgent agent updates else agent)
      (agents state).
Proof. reflexivity. Qed.

Lemma updateAgent_lookup agentId updates state (i : nat) agent :
  agents state !! i = Some agent ->
  agents (updateAgent agentId updates state) !! i =
  Some (if String.eqb (id agent) agentId
        then spreadAgent agent updates else agent).
Proof.
  intros Hi. rewrite updateAgent_agents, list_lookup_fmap, Hi. reflexivity.
Qed.

(** C10. [updateAgent] keeps the agents list's length and positions: the
    agent at an index is rewritten in place, one whose id differs from
    [agentId] is left as it was, and no other field of the store
    changes. *)
Theorem updateAgent_frame agentId updates state :
  let state' := updateAgent agentId updates state in
  length (agents state') = length (agents state)
  /\ (forall (i : nat) agent,
        agents state !! i = Some agent -> id agent <> agentId ->
        agents state' !! i = Some agent)
  /\ (forall (i : nat) agent,
        agents state !! i = Some agent -> id agent = agentId ->
        agents state' !! i = Some (spreadAgent agent updates))
  /\ summaries state' = summaries state
  /\ apiKeys state' = apiKeys state
  /\ settings state' = settings state
  /\ stats state' = stats state
  /\ isProcessing state' = isProcessing state
  /\ currentSummary state' = currentSummary state
  /\ currentVideoUrl state' = currentVideoUrl state.
Proof.
  cbv zeta. split.
  { rewrite updateAgent_agents. apply length_map. }
  split.
  { intros i agent Hi Hne.
    rewrite (updateAgent_lookup _ _ _ _ _ Hi).
    destruct (String.eqb_spec (id agent) agentId); [contradiction | done]. }
  split.
  { intros i agent Hi Heq.
    rewrite (updateAgent_lookup _ _ _ _ _ Hi).
    destruct (String.eqb_spec (id agent) agentId); [done | contradiction]. }
  repeat split.
Qed.

(** On the initial store, marking the extractor as running leaves the
    summarizer (index 2) untouched and rewrites the extractor (index 1). *)
Lemma updateAgent_frame_witness :
  agents (updateAgent "extractor" extractorRunning initialState) !! 2%nat
    = Some (mkAgent "summarizer" "Summarizer Agent")
  /\ agents (updateAgent "extractor" extractorRunning initialState) !! 1%nat
    = Some {| id := "extractor"; name := "Extractor Agent";
              status := running; icon := None; progress := Some 20%Z;
              result := None; duration := None |}.
Proof.
  pose proof (updateAgent_frame "extractor" extractorRunning initialState)
    as (_ & Hother & Hsame & _).
  split.
  - apply (Hother 2%nat (mkAgent "summarizer" "Summarizer Agent")).
    + reflexivity.
    + discriminate.
  - apply (Hsame 1%nat (mkAgent "extractor" "Extractor Agent")); reflexivity.
Defined.

End StoreFacts.

(** ** JavaScript string helpers *)

Module JSFacts.
Import JS.

Lemma trimEnd_cons c r :
  trimEnd (c :: r) = [] \/ trimEnd (c :: r) = c :: trimEnd r.
Proof.
  simpl. destruct (trimEnd r); [destruct (isWhiteSpace c) |]; auto.
Qed.

Lemma trimEnd_head c r :
  isWhiteSpace c = false -> trimEnd (c :: r) = c :: trimEnd r.
Proof.
  intros Hc. simpl. destruct (trimEnd r); [by rewrite Hc | done].
Qed.

Lemma trimEnd_idemp s : trimEnd (trimEnd s) = trimEnd s.
Proof.
  induction s as [|c r IH]; [done |].
  simpl. destruct (trimEnd r) as [|d r'] eqn:Hr.
  - destruct (isWhiteSpace c) eqn:Hc; [done |]. simpl. by rewrite Hc.
  - change (trimEnd (c :: d :: r') = c :: d :: r').
    simpl in IH. simpl.
    destruct (trimEnd r') as [|e r''] eqn:Hr'.
    + destruct (isWhiteSpace d); [discriminate | by rewrite IH].
    + by rewrite IH.
Qed.

Lemma trimStart_idemp s : trimStart (trimStart s) = trimStart s.
Proof.
  induction s as [|c r IH]; [done |].
  simpl. destruct (isWhiteSpace c) eqn:Hc; [done |]. simpl. by rewrite Hc.
Qed.

(** Trimming the end does not uncover white space at the front. *)
Lemma trimStart_trimEnd s :
  trimStart s = s -> trimStart (trimEnd s) = trimEnd s.
Proof.
  destruct s as [|c r]; [done |].
  simpl. destruct (isWhiteSpace c) eqn:Hc.
  - intros Heq. exfalso.
    assert (Hlen : forall t, length (trimStart t) <= length t).
    { induction t as [|x t IHt]; simpl; [lia |].
      destruct (isWhiteSpace x); simpl; lia. }
    pose proof (Hlen r) as Hl. rewrite Heq in Hl. simpl in Hl. lia.
  - intros _. destruct (trimEnd r); simpl; by rewrite Hc.
Qed.

Lemma trim_idemp s : trim (trim s) = trim s.
Proof.
  unfold trim.
  rewrite (trimStart_trimEnd (trimStart s)) by apply trimStart_idemp.
  apply trimEnd_idemp.
Qed.

Lemma trimEnd_solid s : solid s -> trimEnd s = s.
Proof.
  induction 1 as [|c r Hc _ IH]; [done |].
  by rewrite trimEnd_head, IH.
Qed.

Lemma trim_solid s : solid s -> trim s = s.
Proof.
  unfold trim. intros Hs.
  assert (Hstart : trimStart s = s).
  { destruct Hs as [|c r Hc _]; [done |]. simpl. by rewrite Hc. }
  rewrite Hstart. by apply trimEnd_solid.
Qed.

(** *** Numbers below [2^53]

    Below [2^53] the arithmetic of doubles on natural numbers is the
    exact one: sums and products that stay below are not rounded, the
    floor of a quotient is the quotient of the integers, and [toString]
    writes every digit. *)

Lemma roundDouble_safe n : (n < 2 ^ 53)%N -> roundDouble n = n.
Proof.
  unfold roundDouble. intros H. apply N.ltb_lt in H. by rewrite H.
Qed.

Lemma fl_safe n : (n < 2 ^ 53)%N -> fl n = Some n.
Proof.
  intros H. unfold fl. rewrite roundDouble_safe by done. cbv zeta.
  assert (Hlt : (n <? 2 ^ 1024)%N = true).
  { apply N.ltb_lt. eapply N.lt_trans; [exact H |].
    apply N.pow_lt_mono_r; lia. }
  by rewrite Hlt.
Qed.

Lemma roundHalfEven_cases a b :
  roundHalfEven a b = (a / b)%N \/
  (roundHalfEven a b = (a / b + 1)%N /\ (b <= 2 * (a mod b))%N).
Proof.
  unfold roundHalfEven. cbv zeta.
  destruct (2 * (a mod b) <? b)%N eqn:H1; [by left |].
  apply N.ltb_ge in H1.
  destruct (b <? 2 * (a mod b))%N; [by right |].
  destruct (N.even (a / b)); [by left | by right].
Qed.

Lemma roundHalfEven_scaled n d P :
  (0 < d)%N -> (d < 2 * P)%N ->
  (roundHalfEven (n * P) d / P = n / d)%N.
Proof.
  intros Hd HP.
  pose proof (N.div_mod n d ltac:(lia)) as Hn.
  pose proof (N.mod_lt n d ltac:(lia)) as Hr.
  remember (n / d)%N as h eqn:Eh. remember (n mod d)%N as r eqn:Er.
  clear Eh Er.
  pose proof (N.div_mod (r * P) d ltac:(lia)) as Hq.
  pose proof (N.mod_lt (r * P) d ltac:(lia)) as Hu.
  remember (r * P / d)%N as t eqn:Et. remember (r * P mod d)%N as u eqn:Eu.
  clear Et Eu.
  assert (Hdiv : (n * P / d = h * P + t)%N).
  { symmetry. apply (N.div_unique _ _ _ u); [done | nia]. }
  assert (Hmod : (n * P mod d = u)%N).
  { symmetry. apply (N.mod_unique _ _ (h * P + t)); [done | nia]. }
  destruct (roundHalfEven_cases (n * P) d) as [-> | [-> Hhalf]].
  - rewrite Hdiv. symmetry. apply (N.div_unique _ _ _ t); [nia | lia].
  - rewrite Hmod in Hhalf. rewrite Hdiv. symmetry.
    apply (N.div_unique _ _ _ (t + 1)); [nia | lia].
Qed.

Lemma floorDiv_safe n d :
  (n < 2 ^ 53)%N -> (0 < d)%N -> floorDiv n d = (n / d)%N.
Proof.
  intros Hn Hd. unfold floorDiv.
  destruct (n =? 0)%N eqn:H0.
  - apply N.eqb_eq in H0. subst n. by rewrite N.Div0.div_0_l.
  - apply N.eqb_neq in H0. cbv zeta.
    assert (Hlog : (N.log2 n < 53)%N) by (apply N.log2_lt_pow2; lia).
    pose proof (N.log2_spec d Hd) as [_ Hup].
    remember (N.log2 n) as ln eqn:Eln. remember (N.log2 d) as ld eqn:Eld.
    clear Eln.
    set (e := if quotientBelow n d (Z.of_N ln - Z.of_N ld) then _ else _).
    assert (He : (e <= Z.of_N ln - Z.of_N ld)%Z).
    { subst e. destruct (quotientBelow _ _ _); lia. }
    clearbody e.
    assert (Hs : (0 <=? 52 - e)%Z = true) by (apply Z.leb_le; lia).
    rewrite Hs. apply roundHalfEven_scaled; [done |].
    eapply N.lt_le_trans; [exact Hup |].
    rewrite N.pow_succ_r'. apply N.mul_le_mono_l.
    apply N.pow_le_mono_r; lia.
Qed.

Lemma shortest_safe n : (n < 2 ^ 53)%N -> shortest n = n.
Proof.
  unfold shortest. intros H. apply N.ltb_lt in H. by rewrite H.
Qed.

Lemma toString_safe n : (n < 2 ^ 53)%N -> toString n = decimal n.
Proof.
  intros H. unfold toString. rewrite shortest_safe by done. cbv zeta.
  assert (Hlt : (n <? 10 ^ 21)%N = true) by (apply N.ltb_lt; lia).
  by rewrite Hlt.
Qed.

(** *** Decimal numerals *)

Lemma charsUint_uintChars u : charsUint (uintChars u) = Some u.
Proof. induction u; simpl; rewrite ?IHu; reflexivity. Qed.

Lemma uintChars_solid u : solid (uintChars u).
Proof. induction u; simpl; constructor; done. Qed.

Lemma Number_uintChars u : Number (uintChars u) = fl (N.of_uint u).
Proof.
  unfold Number.
  by rewrite trim_solid, charsUint_uintChars by apply uintChars_solid.
Qed.

Lemma Number_toString n : (n < 2 ^ 53)%N -> Number (toString n) = Some n.
Proof.
  intros H. rewrite toString_safe by done. unfold decimal.
  by rewrite Number_uintChars, DecimalN.Unsigned.of_to, fl_safe.
Qed.

Lemma replicate_zero_uintChars k u :
  replicate k (digitChar 0) ++ uintChars u =
  uintChars (Nat.iter k Decimal.D0 u).
Proof. induction k as [|k IH]; simpl; [done | by rewrite IH]. Qed.

Lemma of_uint_leading_zeros k u :
  N.of_uint (Nat.iter k Decimal.D0 u) = N.of_uint u.
Proof. induction k as [|k IH]; simpl; [done | exact IH]. Qed.

Lemma Number_padStart k n :
  (n < 2 ^ 53)%N ->
  Number (padStart k (digitChar 0) (toString n)) = Some n.
Proof.
  intros H. rewrite toString_safe by done. unfold padStart, decimal.
  rewrite replicate_zero_uintChars, Number_uintChars, of_uint_leading_zeros.
  by rewrite DecimalN.Unsigned.of_to, fl_safe.
Qed.

(** *** Splitting *)

Lemma split_free sep s : free sep s -> split sep s = [s].
Proof.
  induction 1 as [|c r Hc _ IH]; [done |]. simpl. by rewrite Hc, IH.
Qed.

Lemma split_app sep a b :
  free sep a -> split sep (a ++ sep :: b) = a :: split sep b.
Proof.
  induction 1 as [|c r Hc _ IH]; simpl.
  - by rewrite N.eqb_refl.
  - by rewrite Hc, IH.
Qed.

Lemma uintChars_free u : free 58 (uintChars u).
Proof. induction u; simpl; constructor; done. Qed.

Lemma toString_free n : (n < 2 ^ 53)%N -> free 58 (toString n).
Proof.
  intros H. rewrite toString_safe by done. apply uintChars_free.
Qed.

Lemma padStart_free k n :
  (n < 2 ^ 53)%N -> free 58 (padStart k (digitChar 0) (toString n)).
Proof.
  intros H. rewrite toString_safe by done. unfold padStart, decimal.
  rewrite replicate_zero_uintChars. apply uintChars_free.
Qed.

End JSFacts.

(** ** Timestamps *)

Module TimestampFacts.
Import JS YouTube JSFacts.

Lemma hms_recompose (s : N) :
  (s / 3600 * 3600 + s mod 3600 / 60 * 60 + s mod 60 = s)%N.
Proof.
  pose proof (N.div_mod s 3600 ltac:(done)) as H1.
  pose proof (N.div_mod (s mod 3600) 60 ltac:(done)) as H2.
  pose proof (N.mod_lt (s mod 3600) 60 ltac:(done)) as H3.
  assert (H60 : ((s mod 3600) mod 60 = s mod 60)%N).
  { apply (N.mod_unique s 60 (60 * (s / 3600) + s mod 3600 / 60)); lia. }
  lia.
Qed.

(** The parts of a timestamp are below the number of seconds. *)
Lemma hms_bounds (s : N) :
  (s / 3600 <= s /\ s mod 3600 / 60 <= s /\ s mod 60 <= s
   /\ s / 3600 * 3600 <= s
   /\ s mod 3600 / 60 * 60 <= s
   /\ s / 3600 * 3600 + s mod 3600 / 60 * 60 <= s)%N.
Proof.
  pose proof (hms_recompose s) as H.
  remember (s / 3600)%N as h eqn:Eh. remember (s mod 3600 / 60)%N as m eqn:Em.
  remember (s mod 60)%N as c eqn:Ec. clear Eh Em Ec. lia.
Qed.

(** Below [2^53] [secondsToTimestamp] computes with the exact quotients
    and writes every digit of each part. *)
Lemma secondsToTimestamp_safe (s : N) :
  (s < 2 ^ 53)%N ->
  secondsToTimestamp s =
    if (0 <? s / 3600)%N then
      toString (s / 3600) ++ [chColon]
        ++ padStart 2 (digitChar 0) (toString (s mod 3600 / 60))
        ++ [chColon] ++ padStart 2 (digitChar 0) (toString (s mod 60))
    else
      toString (s mod 3600 / 60) ++ [chColon]
        ++ padStart 2 (digitChar 0) (toString (s mod 60)).
Proof.
  intros Hs. unfold secondsToTimestamp. cbv zeta.
  rewrite (floorDiv_safe s 3600) by done.
  rewrite (floorDiv_safe (s mod 3600) 60); [done | | done].
  eapply N.le_lt_trans; [apply N.Div0.mod_le | exact Hs].
Qed.

(** Reading back a timestamp whose parts and whose value are below
    [2^53]. *)
Lemma timestampToSeconds_two (k : nat) (a b : N) :
  (a * 60 + b < 2 ^ 53)%N ->
  timestampToSeconds
    (toString a ++ chColon :: padStart k (digitChar 0) (toString b))
  = Some (a * 60 + b)%N.
Proof.
  intros H. unfold timestampToSeconds, chColon.
  rewrite split_app by (apply toString_free; lia).
  rewrite split_free by (apply padStart_free; lia).
  simpl map. rewrite Number_toString, Number_padStart by lia.
  cbn [mbind option_bind]. unfold times, plus.
  rewrite (fl_safe (a * 60)) by lia. cbn [mbind option_bind].
  by rewrite fl_safe.
Qed.

Lemma timestampToSeconds_three (k1 k2 : nat) (a b c : N) :
  (a * 3600 + b * 60 + c < 2 ^ 53)%N ->
  timestampToSeconds
    (toString a ++ chColon :: padStart k1 (digitChar 0) (toString b)
       ++ chColon :: padStart k2 (digitChar 0) (toString c))
  = Some (a * 3600 + b * 60 + c)%N.
Proof.
  intros H. unfold timestampToSeconds, chColon.
  rewrite split_app by (apply toString_free; lia).
  rewrite split_app by (apply padStart_free; lia).
  rewrite split_free by (apply padStart_free; lia).
  simpl map. rewrite Number_toString, !Number_padStart by lia.
  cbn [mbind option_bind]. unfold times, plus.
  rewrite (fl_safe (a * 3600)) by lia. cbn [mbind option_bind].
  rewrite (fl_safe (b * 60)) by lia. cbn [mbind option_bind].
  rewrite (fl_safe (a * 3600 + b * 60)) by lia. cbn [mbind option_bind].
  by rewrite fl_safe.
Qed.

Lemma timestamp_back (s : N) :
  (s < 2 ^ 53)%N -> timestampToSeconds (secondsToTimestamp s) = Some s.
Proof.
  intros Hs. rewrite secondsToTimestamp_safe by done.
  pose proof (hms_recompose s) as Hsum.
  destruct (0 <? s / 3600)%N eqn:Hh.
  - cbn [app]. rewrite timestampToSeconds_three; [by rewrite Hsum |].
    by rewrite Hsum.
  - cbn [app]. apply N.ltb_ge, N.le_0_r in Hh.
    rewrite Hh in Hsum.
    assert (Hms : (s mod 3600 / 60 * 60 + s mod 60 = s)%N) by exact Hsum.
    rewrite timestampToSeconds_two; [by rewrite Hms |].
    by rewrite Hms.
Qed.

(** C9 (amended). Writing a number of seconds below [2^53] as a timestamp
    and reading it back gives the number, and the timestamp has the shape
    [M:SS] under one hour and [H:MM:SS] from one hour on: the parts are
    the quotients and remainders by 3600 and 60, the ones after the first
    padded to two digits. *)
Theorem timestamp_roundtrip (s : N) :
  (s < 2 ^ 53)%N ->
  timestampToSeconds (secondsToTimestamp s) = Some s
  /\ ((s < 3600)%N ->
      secondsToTimestamp s =
        decimal (s / 60) ++ lit ":"
          ++ padStart 2 (digitChar 0) (decimal (s mod 60)))
  /\ ((3600 <= s)%N ->
      secondsToTimestamp s =
        decimal (s / 3600) ++ lit ":"
          ++ padStart 2 (digitChar 0) (decimal (s mod 3600 / 60)) ++ lit ":"
          ++ padStart 2 (digitChar 0) (decimal (s mod 60))).
Proof.
  intros Hs. split; [by apply timestamp_back |].
  pose proof (hms_bounds s) as (Hh & Hm & Hc & _).
  rewrite secondsToTimestamp_safe by done.
  rewrite !toString_safe by lia.
  split; intros Hr.
  - rewrite (N.div_small s 3600), (N.mod_small s 3600) by done. reflexivity.
  - assert (Hpos : (0 <? s / 3600)%N = true).
    { apply N.ltb_lt. apply N.div_str_pos. lia. }
    rewrite Hpos. reflexivity.
Qed.

Lemma timestamp_roundtrip_witness :
  timestampToSeconds (secondsToTimestamp 3725) = Some 3725%N
  /\ secondsToTimestamp 3725 = lit "1:02:05".
Proof.
  assert (Hs : (3725 < 2 ^ 53)%N) by reflexivity.
  destruct (timestamp_roundtrip 3725 Hs) as (Hback & _ & Hlong).
  split; [exact Hback |].
  rewrite Hlong; [reflexivity | discriminate].
Defined.

(** C9, as the specification states it, fails above [2^53].  The number
    [36345869700583544] is a double; its timestamp is
    [10096074916828:45:44]; reading that back, the sum
    [36345869700580800 + 2700] falls between two doubles and is rounded,
    and so is the next sum: the result is [36345869700583552]. *)
Lemma timestamp_roundtrip_counterexample :
  roundDouble 36345869700583544 = 36345869700583544%N
  /\ secondsToTimestamp 36345869700583544 = lit "10096074916828:45:44"
  /\ timestampToSeconds (secondsToTimestamp 36345869700583544)
     = Some 36345869700583552%N
  /\ timestampToSeconds (secondsToTimestamp 36345869700583544)
     <> Some 36345869700583544%N.
Proof.
  repeat split; try (vm_compute; reflexivity).
  vm_compute. discriminate.
Qed.

(** The two shapes of the timestamp: [MM:SS] under one hour, [H:MM:SS]
    from one hour on. *)
Example secondsToTimestamp_short :
  secondsToTimestamp 125 = lit "2:05".
Proof. reflexivity. Qed.

Example secondsToTimestamp_long :
  secondsToTimestamp 3725 = lit "1:02:05".
Proof. reflexivity. Qed.

End TimestampFacts.

(** ** URL validation *)

Module YouTubeFacts.
Import JS YouTube JSFacts.

Lemma isIdChar_spec c : isIdChar c = true <-> idAlphabet c.
Proof.
  unfold isIdChar, idAlphabet.
  rewrite !orb_true_iff, !andb_true_iff, !N.leb_le, !N.eqb_eq. tauto.
Qed.

Lemma isVideoId_spec s :
  isVideoId s = true <-> length s = 11%nat /\ Forall idAlphabet s.
Proof.
  unfold isVideoId. rewrite andb_true_iff, Nat.eqb_eq.
  assert (Hall : forallb isIdChar s = true <-> Forall idAlphabet s).
  { induction s as [|c r IH]; cbn [forallb].
    - split; [constructor | done].
    - rewrite andb_true_iff, list.Forall_cons. pose proof (isIdChar_spec c).
      tauto. }
  tauto.
Qed.

Lemma extractVideoId_unfold url :
  extractVideoId url = extractTrimmed (trim url).
Proof. by destruct url. Qed.

(** [extractVideoId] trims its argument itself, so trimming beforehand
    changes nothing. *)
Lemma extractVideoId_trim url :
  extractVideoId (trim url) = extractVideoId url.
Proof. by rewrite !extractVideoId_unfold, trim_idemp. Qed.

Lemma takeUntil_nil_or stop s :
  takeUntil stop s = [] \/ exists c g, takeUntil stop s = c :: g.
Proof. destruct (takeUntil stop s); eauto. Qed.

(** A capture group [(...+)] is never empty. *)
Lemma groupUntil_nonempty stop s g : groupUntil stop s = Some g -> g <> [].
Proof.
  unfold groupUntil. destruct (takeUntil stop s); [done |].
  intros [= <-]. done.
Qed.

Lemma firstMatch_nonempty here s g :
  (forall t h, here t = Some h -> h <> []) ->
  firstMatch here s = Some g -> g <> [].
Proof.
  intros Hhere. induction s as [|c r IH]; simpl.
  - destruct (here []) eqn:E; [| done]. intros [= <-]. eauto.
  - destruct (here (c :: r)) eqn:E; [| exact IH]. intros [= <-]. eauto.
Qed.

Lemma watchHere_nonempty t h : watchHere t = Some h -> h <> [].
Proof.
  unfold watchHere. destruct t as [|c r]; [done |].
  destruct (_ || _); [| done].
  destruct (stripPrefix _ r); [| done]. apply groupUntil_nonempty.
Qed.

Lemma shortHere_nonempty t h : shortHere t = Some h -> h <> [].
Proof.
  unfold shortHere. destruct (stripPrefix _ t); [| done].
  apply groupUntil_nonempty.
Qed.

Lemma embedHere_nonempty t h : embedHere t = Some h -> h <> [].
Proof.
  unfold embedHere. destruct (stripPrefix _ t); [| done].
  apply groupUntil_nonempty.
Qed.

(** [extractVideoId] never returns the empty string, so the [!videoId]
    test of [validateYouTubeUrl] only catches [null]. *)
Lemma extractVideoId_nonempty url vid :
  extractVideoId url = Some vid -> vid <> [].
Proof.
  rewrite extractVideoId_unfold. unfold extractTrimmed.
  destruct (firstMatch watchHere _) eqn:Ew.
  { intros [= <-]. eapply firstMatch_nonempty, Ew. apply watchHere_nonempty. }
  destruct (firstMatch shortHere _) eqn:Es.
  { intros [= <-]. eapply firstMatch_nonempty, Es. apply shortHere_nonempty. }
  destruct (firstMatch embedHere _) eqn:Ee.
  { intros [= <-]. eapply firstMatch_nonempty, Ee. apply embedHere_nonempty. }
  destruct (isVideoId _) eqn:Ev; [| done].
  intros [= <-]. apply isVideoId_spec in Ev as [Hlen _].
  intros Hnil. by rewrite Hnil in Hlen.
Qed.

Lemma validate_valid url vid :
  extractVideoId url = Some vid -> isVideoId vid = true ->
  validateYouTubeUrl url =
  {| videoId := vid;
     url := lit "https://www.youtube.com/watch?v=" ++ vid;
     isValid := true; error := None |}.
Proof.
  intros He Hv. unfold validateYouTubeUrl. rewrite He.
  pose proof (extractVideoId_nonempty _ _ He) as Hne.
  destruct vid as [|c r]; [done |]. cbv zeta. cbn [falsy default from_option id].
  by rewrite Hv.
Qed.

Lemma validate_isValid url :
  isValid (validateYouTubeUrl url) = true ->
  exists vid, extractVideoId url = Some vid /\ isVideoId vid = true.
Proof.
  unfold validateYouTubeUrl. cbv zeta.
  destruct (extractVideoId url) as [vid|] eqn:He; [| done].
  destruct (falsy (Some vid)); [done |]. cbn [default from_option id].
  destruct (isVideoId vid) eqn:Hv; [| done]. eauto.
Qed.

(** C8. [validateYouTubeUrl url] is valid exactly when [extractVideoId]
    of the trimmed input is a string of 11 characters from the id
    alphabet, and a valid result carries the canonical watch URL of that
    id, whatever shape the input had. *)
Theorem validateYouTubeUrl_canonical (input : jsstring) :
  (isValid (validateYouTubeUrl input) = true <->
     exists vid, extractVideoId (trim input) = Some vid
                 /\ length vid = 11%nat /\ Forall idAlphabet vid)
  /\ (forall vid,
        extractVideoId (trim input) = Some vid ->
        isValid (validateYouTubeUrl input) = true ->
        url (validateYouTubeUrl input) =
          lit "https://www.youtube.com/watch?v=" ++ vid
        /\ videoId (validateYouTubeUrl input) = vid).
Proof.
  rewrite extractVideoId_trim. split; [split |].
  - intros (vid & He & Hv)%validate_isValid.
    exists vid. split; [done |]. by apply isVideoId_spec.
  - intros (vid & He & Hv). apply isVideoId_spec in Hv.
    by rewrite (validate_valid _ _ He Hv).
  - intros vid He (vid' & He' & Hv)%validate_isValid.
    rewrite He in He'. injection He' as <-.
    by rewrite (validate_valid _ _ He Hv).
Qed.

(** A short link with surrounding blanks and a query string. *)
Lemma validateYouTubeUrl_canonical_witness :
  url (validateYouTubeUrl (lit "  https://youtu.be/dQw4w9WgXcQ?t=42 ")) =
    lit "https://www.youtube.com/watch?v=dQw4w9WgXcQ"
  /\ videoId (validateYouTubeUrl (lit "  https://youtu.be/dQw4w9WgXcQ?t=42 "))
     = sampleId.
Proof.
  apply (proj2 (validateYouTubeUrl_canonical
                  (lit "  https://youtu.be/dQw4w9WgXcQ?t=42 "))
           sampleId); reflexivity.
Defined.

(** The four supported shapes give the same canonical result. *)
Example validate_watch :
  validateYouTubeUrl (lit "https://www.youtube.com/watch?v=dQw4w9WgXcQ&t=3") =
  {| videoId := sampleId;
     url := lit "https://www.youtube.com/watch?v=dQw4w9WgXcQ";
     isValid := true; error := None |}.
Proof. reflexivity. Qed.

Example validate_embed :
  validateYouTubeUrl (lit "https://www.youtube.com/embed/dQw4w9WgXcQ") =
  {| videoId := sampleId;
     url := lit "https://www.youtube.com/watch?v=dQw4w9WgXcQ";
     isValid := true; error := None |}.
Proof. reflexivity. Qed.

Example validate_bare :
  validateYouTubeUrl (lit "dQw4w9WgXcQ") =
  {| videoId := sampleId;
     url := lit "https://www.youtube.com/watch?v=dQw4w9WgXcQ";
     isValid := true; error := None |}.
Proof. reflexivity. Qed.

(** An id followed by a fragment is captured whole and rejected. *)
Example validate_fragment :
  isValid (validateYouTubeUrl
             (lit "https://www.youtube.com/watch?v=dQw4w9WgXcQ#t=3")) = false.
Proof. reflexivity. Qed.

End YouTubeFacts.

(** ** The store: the other actions *)

Module StoreActionsFacts.
Import Store Persist.

Lemma deleteSummary_summaries i state :
  summaries (deleteSummary i state) =
  filter (fun s => negb (String.eqb (s_id s) i) = true) (summaries state).
Proof. reflexivity. Qed.

Lemma kept_iff (s : Summary) i :
  negb (String.eqb (s_id s) i) = true <-> s_id s <> i.
Proof. by rewrite negb_true_iff, String.eqb_neq. Qed.

Lemma filter_all {A} (P : A -> Prop) `{!forall x, Decision (P x)} (l : list A) :
  Forall P l -> filter P l = l.
Proof.
  induction 1 as [|x l Hx _ IH]; [done |].
  by rewrite filter_cons_True, IH.
Qed.

Lemma deleteSummary_absent i state :
  (forall s, s ∈ summaries state -> s_id s <> i) ->
  deleteSummary i state = state.
Proof.
  intros Hfresh. destruct state as [p u c a l k se st].
  unfold deleteSummary, set, assign. simpl. f_equal.
  apply filter_all, Forall_forall. intros s Hs. apply kept_iff. auto.
Qed.

(** [deleteSummary] takes out every summary with the given id and nothing
    else: the others stay, in their order, and the rest of the store is
    untouched. *)
Theorem deleteSummary_removes i state :
  let state' := deleteSummary i state in
  (forall s, s ∈ summaries state' <-> s ∈ summaries state /\ s_id s <> i)
  /\ summaries state' `sublist_of` summaries state
  /\ agents state' = agents state
  /\ apiKeys state' = apiKeys state
  /\ settings state' = settings state
  /\ stats state' = stats state
  /\ isProcessing state' = isProcessing state
  /\ currentSummary state' = currentSummary state
  /\ currentVideoUrl state' = currentVideoUrl state.
Proof.
  cbv zeta. rewrite deleteSummary_summaries. split.
  { intros s. rewrite list_elem_of_filter, kept_iff. tauto. }
  split; [apply sublist_filter | done].
Qed.

(** Adding a summary whose id is new and deleting that id again gives the
    store back as it was. *)
Theorem addSummary_deleteSummary summary state :
  (forall s, s ∈ summaries state -> s_id s <> s_id summary) ->
  deleteSummary (s_id summary) (addSummary summary state) = state.
Proof.
  intros Hfresh. destruct state as [p u c a l k se st].
  unfold deleteSummary, addSummary, set, assign. simpl. f_equal.
  rewrite filter_cons_False by (rewrite kept_iff; tauto).
  apply filter_all, Forall_forall. intros s Hs. apply kept_iff. auto.
Qed.

Lemma addSummary_deleteSummary_witness :
  deleteSummary "b" (addSummary (sampleSummary "b")
                       (addSummary (sampleSummary "a") initialState))
  = addSummary (sampleSummary "a") initialState.
Proof.
  apply (addSummary_deleteSummary (sampleSummary "b")
           (addSummary (sampleSummary "a") initialState)).
  intros s Hs. apply list_elem_of_singleton in Hs as ->. discriminate.
Defined.

(** Deleting the same id a second time, or an id no summary has, changes
    nothing. *)
Theorem deleteSummary_idempotent i state :
  deleteSummary i (deleteSummary i state) = deleteSummary i state
  /\ ((forall s, s ∈ summaries state -> s_id s <> i) ->
      deleteSummary i state = state).
Proof.
  split; [| apply deleteSummary_absent].
  apply deleteSummary_absent. intros s Hs.
  rewrite deleteSummary_summaries, list_elem_of_filter, kept_iff in Hs.
  tauto.
Qed.

Lemma deleteSummary_idempotent_witness :
  deleteSummary "zz" (addSummary (sampleSummary "a") initialState)
  = addSummary (sampleSummary "a") initialState.
Proof.
  apply (proj2 (deleteSummary_idempotent "zz"
                  (addSummary (sampleSummary "a") initialState))).
  intros s Hs. apply list_elem_of_singleton in Hs as ->. discriminate.
Defined.

(** An increment is exact as long as the sum is a double; at [2^53] the
    sum is rounded back to [2^53]. *)
Lemma addOne_safe (x : number) :
  (- 2 ^ 53 <= x < 2 ^ 53)%Z -> addOne x = (x + 1)%Z.
Proof.
  intros Hx. unfold addOne.
  destruct (decide (x + 1 = 2 ^ 53)%Z) as [He | Hne].
  - rewrite He. reflexivity.
  - rewrite JSFacts.roundDouble_safe by lia.
    rewrite N2Z.inj_abs_N. clear. by destruct (x + 1)%Z.
Qed.

Lemma addOne_lost : addOne (2 ^ 53) = (2 ^ 53)%Z.
Proof. reflexivity. Qed.

(** [incrementStat] leaves the counters it does not name as they are
    and adds one to the counter it names as long as that counter is below
    [2^53] (and not below [-2^53]); at [2^53] the increment is lost.  Two
    increments can be made in either order. *)
Theorem incrementStat_counts a b state :
  (forall k, k <> a ->
             statOf k (stats (incrementStat a state)) = statOf k (stats state))
  /\ ((- 2 ^ 53 <= statOf a (stats state) < 2 ^ 53)%Z ->
      statOf a (stats (incrementStat a state)) = (statOf a (stats state) + 1)%Z)
  /\ (statOf a (stats state) = (2 ^ 53)%Z ->
      statOf a (stats (incrementStat a state)) = (2 ^ 53)%Z)
  /\ incrementStat a (incrementStat b state) =
     incrementStat b (incrementStat a state).
Proof.
  split; [| split; [| split]].
  - intros k Hk. destruct k, a; simpl; congruence.
  - intros Hx. destruct a; simpl in *; by apply addOne_safe.
  - intros Hx. destruct a; simpl in *; rewrite Hx; apply addOne_lost.
  - destruct state as [p u c ag l k se [x y z]].
    destruct a, b; unfold incrementStat, set, assign; simpl; done.
Qed.

Lemma incrementStat_counts_witness :
  statOf kTotalQuestions (stats (incrementStat kTotalQuestions initialState))
  = (statOf kTotalQuestions (stats initialState) + 1)%Z.
Proof.
  pose proof (incrementStat_counts kTotalQuestions kTotalQuestions initialState)
    as (_ & Hcount & _).
  apply Hcount. split; [discriminate | reflexivity].
Defined.

(** [resetAgents] puts the agents back to the initial list, whatever was
    reported before: an update followed by a reset is a reset, and a
    second reset changes nothing. *)
Theorem resetAgents_restores agentId updates state :
  agents (resetAgents state) = agents initialState
  /\ Forall (fun agent => status agent = idle) (agents (resetAgents state))
  /\ resetAgents (updateAgent agentId updates state) = resetAgents state
  /\ resetAgents (resetAgents state) = resetAgents state.
Proof.
  split; [reflexivity |]. split; [by repeat constructor |].
  by destruct state.
Qed.

(** Progress is not persisted: the slice written to storage is the same
    before and after every action on the processing flag, the current
    video, the current summary and the agents. *)
Theorem partialize_transient state b videoUrl summary agentId updates :
  partialize (setProcessing b state) = partialize state
  /\ partialize (setCurrentVideoUrl videoUrl state) = partialize state
  /\ partialize (setCurrentSummary summary state) = partialize state
  /\ partialize (updateAgent agentId updates state) = partialize state
  /\ partialize (resetAgents state) = partialize state.
Proof. repeat split. Qed.

Lemma spreadAgent_merge agent first second :
  spreadAgent (spreadAgent agent first) second =
  spreadAgent agent (mergeUpdates first second).
Proof.
  destruct first as [a1 b1 c1 d1 e1 f1 g1], second as [a2 b2 c2 d2 e2 f2 g2].
  unfold spreadAgent, mergeUpdates. simpl.
  by destruct a2, b2, c2, d2, e2, f2, g2.
Qed.

Lemma updateAgent_eq agentId updates state :
  updateAgent agentId updates state =
  {| isProcessing := isProcessing state;
     currentVideoUrl := currentVideoUrl state;
     currentSummary := currentSummary state;
     agents := map (fun agent => if String.eqb (id agent) agentId
                                 then spreadAgent agent updates else agent)
                   (agents state);
     summaries := summaries state; apiKeys := apiKeys state;
     settings := settings state; stats := stats state |}.
Proof. reflexivity. Qed.

(** An update for an id that no agent has changes nothing. *)
Theorem updateAgent_unknown agentId updates state :
  (forall agent, agent ∈ agents state -> id agent <> agentId) ->
  updateAgent agentId updates state = state.
Proof.
  intros Hnone. rewrite updateAgent_eq. destruct state as [p u c ag l k se st].
  simpl in *. f_equal. induction ag as [|agent rest IH]; [done |].
  simpl. rewrite IH by (intros ? ?; apply Hnone; by right).
  destruct (String.eqb_spec (id agent) agentId) as [Heq|]; [| done].
  exfalso. apply (Hnone agent); [by left | done].
Qed.

Lemma updateAgent_unknown_witness :
  updateAgent "translator" extractorRunning initialState = initialState.
Proof.
  apply (updateAgent_unknown "translator" extractorRunning initialState).
  intros agent Hin.
  repeat (apply elem_of_cons in Hin as [-> | Hin]; [discriminate |]).
  by apply elem_of_nil in Hin.
Defined.

(** Two updates for the same agent are one update with the later keys
    winning, as long as the first does not rename the agent; updates for
    two different agents can be made in either order when neither
    renames. *)
Theorem updateAgent_compose agentId other first second state :
  p_id first = None ->
  updateAgent agentId second (updateAgent agentId first state) =
  updateAgent agentId (mergeUpdates first second) state
  /\ (p_id second = None -> other <> agentId ->
      updateAgent other second (updateAgent agentId first state) =
      updateAgent agentId first (updateAgent other second state)).
Proof.
  intros Hfirst.
  assert (Hid : forall agent u, p_id u = None -> id (spreadAgent agent u) = id agent).
  { intros agent u Hu. unfold spreadAgent. simpl. by rewrite Hu. }
  split.
  - rewrite !updateAgent_eq. simpl. f_equal. rewrite map_map.
    apply map_ext. intros agent.
    destruct (String.eqb (id agent) agentId) eqn:E; [| by rewrite E].
    by rewrite Hid, E, spreadAgent_merge.
  - intros Hsecond Hne. rewrite !updateAgent_eq. simpl. f_equal.
    rewrite !map_map. apply map_ext. intros agent.
    destruct (String.eqb (id agent) agentId) eqn:Ea,
             (String.eqb (id agent) other) eqn:Eo;
      rewrite ?Hid, ?Ea, ?Eo by done; try done.
    apply String.eqb_eq in Ea, Eo. congruence.
Qed.

Lemma updateAgent_compose_witness :
  updateAgent "extractor"
    {| p_id := None; p_name := None; p_status := Some completed;
       p_icon := None; p_progress := None; p_result := None;
       p_duration := Some (Some 1200%Z) |}
    (updateAgent "extractor" extractorRunning initialState)
  = updateAgent "extractor"
      {| p_id := None; p_name := None; p_status := Some completed;
         p_icon := None; p_progress := Some (Some 20%Z); p_result := None;
         p_duration := Some (Some 1200%Z) |}
      initialState.
Proof.
  apply (proj1 (updateAgent_compose "extractor" "summarizer" extractorRunning
                  {| p_id := None; p_name := None; p_status := Some completed;
                     p_icon := None; p_progress := None; p_result := None;
                     p_duration := Some (Some 1200%Z) |}
                  initialState eq_refl)).
Defined.

End StoreActionsFacts.

(** ** The settings page *)

Module SettingsPageFacts.
Import Store SettingsPage.

(** What the key form saves is what it shows when it is opened again, and
    of two saves the later one stands. *)
Theorem handleSaveKeys_roundtrip tempKeys earlier state :
  initialTempKeys (apiKeys (handleSaveKeys tempKeys state)) = tempKeys
  /\ handleSaveKeys tempKeys (handleSaveKeys earlier state) =
     handleSaveKeys tempKeys state
  /\ agents (handleSaveKeys tempKeys state) = agents state
  /\ summaries (handleSaveKeys tempKeys state) = summaries state
  /\ settings (handleSaveKeys tempKeys state) = settings state
  /\ stats (handleSaveKeys tempKeys state) = stats state.
Proof.
  split; [by destruct tempKeys |]. split; [| done]. by destruct state.
Qed.

(** A form opened on a store without keys and saved as it is stores two
    empty strings, not two absent keys. *)
Theorem handleSaveKeys_empty state :
  openrouter (apiKeys state) = None -> googleAi (apiKeys state) = None ->
  apiKeys (handleSaveKeys (initialTempKeys (apiKeys state)) state) =
  {| openrouter := Some ""; googleAi := Some "" |}.
Proof.
  intros Ho Hg. unfold handleSaveKeys, initialTempKeys. simpl.
  by rewrite Ho, Hg.
Qed.

Lemma handleSaveKeys_empty_witness :
  apiKeys (handleSaveKeys (initialTempKeys (apiKeys initialState)) initialState)
  = {| openrouter := Some ""; googleAi := Some "" |}.
Proof. apply (handleSaveKeys_empty initialState); reflexivity. Defined.

Lemma getFeature_setFeature k k' v fs :
  getFeature k' (setFeature k v fs) =
  if decide (k' = k) then v else getFeature k' fs.
Proof. by destruct k, k'. Qed.

Lemma features_toggle k state :
  features (settings (handleFeatureToggle k state)) =
  setFeature k (negb (getFeature k (features (settings state))))
    (features (settings state)).
Proof. reflexivity. Qed.

(** Toggling a feature flips that flag and no other, keeps the backend
    and the default mode, and a second toggle of the same feature gives
    the store back; toggles of two features can be made in either
    order. *)
Theorem handleFeatureToggle_involutive k k' state :
  (forall j, getFeature j (features (settings (handleFeatureToggle k state))) =
             if decide (j = k)
             then negb (getFeature j (features (settings state)))
             else getFeature j (features (settings state)))
  /\ backend (settings (handleFeatureToggle k state)) = backend (settings state)
  /\ defaultMode (settings (handleFeatureToggle k state)) =
     defaultMode (settings state)
  /\ handleFeatureToggle k (handleFeatureToggle k state) = state
  /\ handleFeatureToggle k (handleFeatureToggle k' state) =
     handleFeatureToggle k' (handleFeatureToggle k state).
Proof.
  split.
  { intros j. rewrite features_toggle, getFeature_setFeature.
    by destruct (decide (j = k)) as [->|]. }
  split; [done |]. split; [done |].
  destruct state as [p u c ag l ks [be dm [a b d e]] st].
  split.
  - by destruct k, a, b, d, e.
  - by destruct k, k'.
Qed.

End SettingsPageFacts.

(** ** The history page *)

Module HistoryPageFacts.
Import HistoryPage.

Lemma elem_of_toggleFavorite i j (favorites : gset string) :
  j ∈ toggleFavorite i favorites <->
  if decide (j = i) then i ∉ favorites else j ∈ favorites.
Proof.
  unfold toggleFavorite.
  destruct (decide (i ∈ favorites)), (decide (j = i)) as [->|];
    rewrite ?elem_of_difference, ?elem_of_union, ?elem_of_singleton; tauto.
Qed.

(** [toggleFavorite] flips the membership of the id it is given and of no
    other; a second toggle undoes the first, and toggles of two ids can
    be made in either order. *)
Theorem toggleFavorite_involutive i j (favorites : gset string) :
  (i ∈ toggleFavorite i favorites <-> i ∉ favorites)
  /\ (j <> i -> (j ∈ toggleFavorite i favorites <-> j ∈ favorites))
  /\ toggleFavorite i (toggleFavorite i favorites) = favorites
  /\ toggleFavorite i (toggleFavorite j favorites) =
     toggleFavorite j (toggleFavorite i favorites).
Proof.
  split.
  { rewrite elem_of_toggleFavorite. by destruct (decide (i = i)). }
  split.
  { intros Hne. rewrite elem_of_toggleFavorite.
    by destruct (decide (j = i)). }
  split; apply set_eq; intros x;
    destruct (decide (i ∈ favorites)), (decide (j ∈ favorites));
    repeat (first [rewrite elem_of_toggleFavorite | case_decide]; subst);
    first [tauto | congruence | naive_solver].
Qed.

Lemma toggleFavorite_involutive_witness :
  "b" ∈ toggleFavorite "a" ({["b"]} : gset string).
Proof.
  pose proof (toggleFavorite_involutive "a" "b" {["b"]}) as (_ & Hother & _).
  apply Hother; [discriminate | by apply elem_of_singleton].
Defined.

End HistoryPageFacts.

(** ** URL utilities: more on ids and white space *)

Module UrlFacts.
Import JS YouTube YouTubeUrls JSFacts YouTubeFacts.

Lemma stripPrefix_Some p : forall t r, stripPrefix p t = Some r -> t = p ++ r.
Proof.
  induction p as [|c p IH]; intros t r; simpl.
  { by intros [= ->]. }
  destruct t as [|d t]; [done |].
  destruct (N.eqb_spec d c) as [->|]; [| done].
  intros H. by rewrite (IH _ _ H).
Qed.

(** A pattern that fails on every string of some kind fails to match
    anywhere in such a string, when the kind is closed under tails. *)
Lemma firstMatch_none here (P : N -> Prop) s :
  (forall t, Forall P t -> here t = None) ->
  Forall P s -> firstMatch here s = None.
Proof.
  intros Hhere. induction 1 as [|c r Hc Hr IH]; simpl.
  - by rewrite Hhere.
  - by rewrite Hhere, IH by by constructor.
Qed.

Lemma firstMatch_skip here (P : N -> Prop) p t :
  (forall q r, Forall P q -> q <> [] -> here (q ++ r) = None) ->
  Forall P p -> firstMatch here (p ++ t) = firstMatch here t.
Proof.
  intros Hhere. induction 1 as [|c r Hc Hr IH]; [done |].
  change ((c :: r) ++ t) with (c :: (r ++ t)).
  cbn [firstMatch]. change (c :: (r ++ t)) with ((c :: r) ++ t).
  rewrite Hhere; [exact IH | by constructor | done].
Qed.

Lemma idAlphabet_solid c : idAlphabet c -> isWhiteSpace c = false.
Proof.
  unfold idAlphabet, isWhiteSpace. intros H.
  repeat (apply orb_false_intro);
    rewrite ?andb_false_iff, ?N.leb_gt, ?N.eqb_neq; lia.
Qed.

Lemma idAlphabet_plain c : idAlphabet c -> c <> chQuestion /\ c <> chAmp /\ c <> 46%N.
Proof. unfold idAlphabet, chQuestion, chAmp. lia. Qed.

Lemma watchHere_id t : Forall idAlphabet t -> watchHere t = None.
Proof.
  destruct 1 as [|c r Hc _]; [done |]. simpl.
  apply idAlphabet_plain in Hc as (Hq & Ha & _).
  by apply N.eqb_neq in Hq as ->; apply N.eqb_neq in Ha as ->.
Qed.

(** A literal with a dot in it is no prefix of a string of id
    characters. *)
Lemma stripPrefix_dot p t :
  46%N ∈ p -> Forall idAlphabet t -> stripPrefix p t = None.
Proof.
  intros Hdot Ht. destruct (stripPrefix p t) as [r|] eqn:E; [| done].
  apply stripPrefix_Some in E as ->.
  apply Forall_app in Ht as [Hp _].
  rewrite Forall_forall in Hp. apply Hp, idAlphabet_plain in Hdot. lia.
Qed.

Lemma shortHere_id t : Forall idAlphabet t -> shortHere t = None.
Proof.
  intros Ht. unfold shortHere. rewrite stripPrefix_dot; [done | | done].
  by apply (bool_decide_unpack _).
Qed.

Lemma embedHere_id t : Forall idAlphabet t -> embedHere t = None.
Proof.
  intros Ht. unfold embedHere. rewrite stripPrefix_dot; [done | | done].
  by apply (bool_decide_unpack _).
Qed.

Lemma isVideoId_trim s : isVideoId s = true -> trim s = s.
Proof.
  intros [_ Hs]%isVideoId_spec. apply trim_solid.
  eapply Forall_impl; [exact Hs | apply idAlphabet_solid].
Qed.

(** A string of 11 id characters is taken as the video id itself:
    [extractVideoId] returns it unchanged and [validateYouTubeUrl] builds
    its watch URL. *)
Theorem bare_id_accepted s :
  isVideoId s = true ->
  extractVideoId s = Some s /\ validateYouTubeUrl s = canonicalUrlOf s.
Proof.
  intros Hid.
  assert (He : extractVideoId s = Some s).
  { rewrite extractVideoId_unfold, isVideoId_trim by done.
    pose proof Hid as [_ Hs]%isVideoId_spec. unfold extractTrimmed.
    rewrite (firstMatch_none watchHere idAlphabet) by auto using watchHere_id.
    rewrite (firstMatch_none shortHere idAlphabet) by auto using shortHere_id.
    rewrite (firstMatch_none embedHere idAlphabet) by auto using embedHere_id.
    by rewrite Hid. }
  split; [done |]. by apply validate_valid.
Qed.

Lemma bare_id_accepted_witness :
  extractVideoId (lit "a1B2-c3D4_e") = Some (lit "a1B2-c3D4_e").
Proof. apply (bare_id_accepted (lit "a1B2-c3D4_e")). reflexivity. Defined.

Lemma takeUntil_free stop s : free stop s -> takeUntil stop s = s.
Proof. induction 1 as [|c r Hc _ IH]; simpl; [done | by rewrite Hc, IH]. Qed.

Lemma watchHere_plain q r :
  Forall (fun c => c <> chQuestion /\ c <> chAmp) q -> q <> [] ->
  watchHere (q ++ r) = None.
Proof.
  destruct 1 as [|c q' [Hq Ha] _]; [done |]. intros _. simpl.
  by apply N.eqb_neq in Hq as ->; apply N.eqb_neq in Ha as ->.
Qed.

Lemma extractVideoId_canonical vid :
  isVideoId vid = true ->
  extractVideoId (lit "https://www.youtube.com/watch?v=" ++ vid) = Some vid.
Proof.
  intros Hid. pose proof Hid as [Hlen Hs]%isVideoId_spec.
  rewrite extractVideoId_unfold, trim_solid.
  2:{ apply Forall_app. split; [by apply (bool_decide_unpack _) |].
      eapply Forall_impl; [exact Hs | apply idAlphabet_solid]. }
  unfold extractTrimmed.
  change (lit "https://www.youtube.com/watch?v=")
    with (lit "https://www.youtube.com/watch" ++ lit "?v=").
  rewrite <- app_assoc.
  rewrite (firstMatch_skip watchHere
             (fun c => c <> chQuestion /\ c <> chAmp)).
  2:{ apply watchHere_plain. }
  2:{ by apply (bool_decide_unpack _). }
  assert (Hg : groupUntil chAmp vid = Some vid).
  { unfold groupUntil. rewrite takeUntil_free.
    - by destruct vid.
    - eapply Forall_impl; [exact Hs |]. intros c Hc. simpl in Hc.
      apply N.eqb_neq. by apply idAlphabet_plain in Hc as (_ & Ha & _). }
  destruct vid as [|c vid']; [done |].
  change (lit "?v=" ++ c :: vid') with (63%N :: 118%N :: 61%N :: c :: vid').
  cbn [firstMatch watchHere]. change (lit "v=") with [118%N; 61%N].
  rewrite N.eqb_refl. cbn [orb stripPrefix]. rewrite !N.eqb_refl.
  by rewrite Hg.
Qed.

(** The URL of a valid result validates to the same result: feeding the
    canonical URL back in changes nothing. *)
Theorem validate_canonical_fixpoint input :
  isValid (validateYouTubeUrl input) = true ->
  validateYouTubeUrl (url (validateYouTubeUrl input)) = validateYouTubeUrl input.
Proof.
  intros (vid & He & Hv)%validate_isValid.
  rewrite (validate_valid _ _ He Hv). cbn [url].
  apply validate_valid; [| done]. by apply extractVideoId_canonical.
Qed.

Lemma validate_canonical_fixpoint_witness :
  validateYouTubeUrl
    (url (validateYouTubeUrl (lit "https://youtu.be/dQw4w9WgXcQ?t=42")))
  = validateYouTubeUrl (lit "https://youtu.be/dQw4w9WgXcQ?t=42").
Proof.
  apply (validate_canonical_fixpoint (lit "https://youtu.be/dQw4w9WgXcQ?t=42")).
  reflexivity.
Defined.

(** A result is valid exactly when it carries no error message, and an
    invalid result returns the input as it was given, untrimmed. *)
Theorem validate_error_iff input :
  (isValid (validateYouTubeUrl input) = true <->
   error (validateYouTubeUrl input) = None)
  /\ (isValid (validateYouTubeUrl input) = false ->
      url (validateYouTubeUrl input) = input).
Proof.
  unfold validateYouTubeUrl. cbv zeta.
  destruct (falsy (extractVideoId input)); [by split |].
  destruct (negb (isVideoId _)); by split.
Qed.

Lemma validate_error_iff_witness :
  url (validateYouTubeUrl (lit " not a link ")) = lit " not a link ".
Proof.
  apply (proj2 (validate_error_iff (lit " not a link "))). reflexivity.
Defined.

(** *** White space around the input *)

Lemma trimStart_blank ws s : blank ws -> trimStart (ws ++ s) = trimStart s.
Proof. induction 1 as [|c r Hc _ IH]; simpl; [done | by rewrite Hc]. Qed.

Lemma trimEnd_blank ws : blank ws -> trimEnd ws = [].
Proof.
  induction 1 as [|c r Hc _ IH]; simpl; [done | by rewrite IH, Hc].
Qed.

Lemma trimEnd_app_blank s ws : blank ws -> trimEnd (s ++ ws) = trimEnd s.
Proof.
  intros Hws. induction s as [|c r IH]; simpl.
  - by apply trimEnd_blank.
  - by rewrite IH.
Qed.

Lemma trim_app_blank s ws : blank ws -> trim (s ++ ws) = trim s.
Proof.
  intros Hws. unfold trim. induction s as [|c r IH]; simpl.
  - rewrite <- (app_nil_r ws), trimStart_blank by done. done.
  - destruct (isWhiteSpace c); [exact IH |].
    change (c :: r ++ ws) with ((c :: r) ++ ws).
    by apply trimEnd_app_blank.
Qed.

Lemma trim_padded ws1 s ws2 :
  blank ws1 -> blank ws2 -> trim (ws1 ++ s ++ ws2) = trim s.
Proof.
  intros H1 H2. unfold trim. rewrite trimStart_blank by done.
  by apply trim_app_blank.
Qed.

(** White space before and after the input never matters: the id
    extracted, and whether the input is valid, are those of the input
    without it. *)
Theorem extractVideoId_padding ws1 input ws2 :
  blank ws1 -> blank ws2 ->
  extractVideoId (ws1 ++ input ++ ws2) = extractVideoId input
  /\ isValid (validateYouTubeUrl (ws1 ++ input ++ ws2)) =
     isValid (validateYouTubeUrl input)
  /\ videoId (validateYouTubeUrl (ws1 ++ input ++ ws2)) =
     videoId (validateYouTubeUrl input).
Proof.
  intros H1 H2.
  assert (He : extractVideoId (ws1 ++ input ++ ws2) = extractVideoId input).
  { by rewrite !extractVideoId_unfold, trim_padded. }
  split; [done |]. unfold validateYouTubeUrl. cbv zeta. rewrite He.
  destruct (falsy (extractVideoId input)); [done |].
  by destruct (negb (isVideoId _)).
Qed.

Lemma extractVideoId_padding_witness :
  extractVideoId (lit "   " ++ lit "https://youtu.be/dQw4w9WgXcQ" ++ [10%N; 9%N])
  = extractVideoId (lit "https://youtu.be/dQw4w9WgXcQ").
Proof.
  apply (extractVideoId_padding (lit "   ")
           (lit "https://youtu.be/dQw4w9WgXcQ") [10%N; 9%N]);
    repeat constructor.
Defined.

End UrlFacts.

(** ** Timestamps and embed URLs: edge cases *)

Module TimestampEdgeFacts.
Import JS YouTube YouTubeUrls JSFacts.

Lemma padStart_zero s : padStart 0 (digitChar 0) s = s.
Proof. reflexivity. Qed.

(** [timestampToSeconds] does not check ranges: the parts are
    multiplied out as they are, so minutes and seconds of 60 and more are
    accepted; the result is the exact sum as long as that is below
    [2^53].  From there on the sums are rounded: [150119987579016:33]
    stands for [2^53 + 1] seconds and gives [2^53]. *)
Theorem timestampToSeconds_unchecked (h m s : N) :
  ((m * 60 + s < 2 ^ 53)%N ->
   timestampToSeconds (toString m ++ lit ":" ++ toString s)
   = Some (m * 60 + s)%N)
  /\ ((h * 3600 + m * 60 + s < 2 ^ 53)%N ->
      timestampToSeconds
        (toString h ++ lit ":" ++ toString m ++ lit ":" ++ toString s)
      = Some (h * 3600 + m * 60 + s)%N)
  /\ timestampToSeconds (lit "150119987579016:33")
     = Some 9007199254740992%N.
Proof.
  split; [| split].
  - apply (TimestampFacts.timestampToSeconds_two 0 m s).
  - apply (TimestampFacts.timestampToSeconds_three 0 0 h m s).
  - vm_compute. reflexivity.
Qed.

Lemma timestampToSeconds_unchecked_witness :
  timestampToSeconds (lit "1:75") = Some 135%N.
Proof.
  apply (proj1 (timestampToSeconds_unchecked 0 1 75)). reflexivity.
Defined.

(** With one part, or with more than three, the result is 0: a plain
    number of seconds without a colon is not read as seconds. *)
Theorem timestampToSeconds_other_shapes (timestamp : jsstring) :
  (length (split chColon timestamp) <> 2%nat ->
   length (split chColon timestamp) <> 3%nat ->
   timestampToSeconds timestamp = Some 0%N)
  /\ (free chColon timestamp -> timestampToSeconds timestamp = Some 0%N).
Proof.
  assert (Hshape : length (split chColon timestamp) <> 2%nat ->
                   length (split chColon timestamp) <> 3%nat ->
                   timestampToSeconds timestamp = Some 0%N).
  { unfold timestampToSeconds. cbv zeta.
    destruct (split chColon timestamp) as [|p0 [|p1 [|p2 [|p3 rest]]]];
      simpl; done. }
  split; [done |]. intros Hfree. apply Hshape; by rewrite split_free.
Qed.

Lemma timestampToSeconds_other_shapes_witness :
  timestampToSeconds (lit "90") = Some 0%N.
Proof.
  apply (proj2 (timestampToSeconds_other_shapes (lit "90"))).
  repeat constructor.
Defined.

Lemma two_digits n : (n < 60)%N ->
  length (padStart 2 (digitChar 0) (toString n)) = 2%nat.
Proof.
  intros Hn.
  assert (Hall : forallb (fun k =>
                    length (padStart 2 (digitChar 0) (toString (N.of_nat k)))
                    =? 2)%nat (seq 0 60) = true) by (vm_compute; reflexivity).
  rewrite forallb_forall in Hall.
  specialize (Hall (N.to_nat n)). rewrite N2Nat.id in Hall.
  apply Nat.eqb_eq, Hall, in_seq. lia.
Qed.

(** The shape of the timestamp of a number of seconds below [2^53]:
    minutes and seconds separated by one colon under an hour, hours,
    minutes and seconds from an hour on; the fields after the first
    always have two digits.  Above [2^53] the first field is not the
    decimal numeral of the quotient any more: for [1e21] seconds it is
    [277777777777777800]. *)
Theorem secondsToTimestamp_shape (seconds : N) :
  ((seconds < 2 ^ 53)%N ->
   ((seconds < 3600)%N ->
    exists m s, split chColon (secondsToTimestamp seconds) = [m; s]
                /\ m = decimal (seconds / 60) /\ length s = 2%nat)
   /\ ((3600 <= seconds)%N ->
       exists h m s, split chColon (secondsToTimestamp seconds) = [h; m; s]
                     /\ h = decimal (seconds / 3600)
                     /\ length m = 2%nat /\ length s = 2%nat))
  /\ secondsToTimestamp 1000000000000000000000
     = lit "277777777777777800:46:40".
Proof.
  split; [| vm_compute; reflexivity].
  intros Hb. rewrite TimestampFacts.secondsToTimestamp_safe by done.
  pose proof (TimestampFacts.hms_bounds seconds) as (Hh & Hm & Hc & _).
  split; intros Hs.
  - rewrite (N.mod_small seconds 3600) in Hm by done.
    rewrite (N.div_small seconds 3600), (N.mod_small seconds 3600) by done.
    cbn [N.ltb N.compare]. cbn [app].
    rewrite split_app by (apply toString_free; lia).
    rewrite split_free by (apply padStart_free; lia).
    eexists _, _. split; [done |]. split; [apply toString_safe; lia |].
    apply two_digits, N.mod_lt. done.
  - assert (Hpos : (0 <? seconds / 3600)%N = true).
    { apply N.ltb_lt, N.div_str_pos. lia. }
    rewrite Hpos. cbn [app].
    rewrite split_app by (apply toString_free; lia).
    rewrite split_app by (apply padStart_free; lia).
    rewrite split_free by (apply padStart_free; lia).
    eexists _, _, _. split; [done |]. split; [apply toString_safe; lia |].
    split; apply two_digits.
    + apply N.Div0.div_lt_upper_bound. apply (N.mod_lt seconds 3600). done.
    + apply N.mod_lt. done.
Qed.

Lemma secondsToTimestamp_shape_witness :
  exists m s, split chColon (secondsToTimestamp 125) = [m; s]
              /\ m = decimal (125 / 60) /\ length s = 2%nat.
Proof.
  apply (proj1 (secondsToTimestamp_shape 125)); reflexivity.
Defined.

(** For a number of seconds below [2^53], the timestamp given as
    text and the same time given as a number lead to the same URL.
    Above [2^53] they can differ: the text of [36345869700583544]
    seconds is read back as another number. *)
Theorem getTimestampUrl_agrees (videoId : jsstring) (seconds : N) :
  ((seconds < 2 ^ 53)%N ->
   getTimestampUrl videoId (inl (secondsToTimestamp seconds)) =
   getTimestampUrl videoId (inr seconds)
   /\ getTimestampUrl videoId (inr seconds) =
      Some (lit "https://www.youtube.com/watch?v=" ++ videoId ++ lit "&t="
            ++ decimal seconds ++ lit "s"))
  /\ getTimestampUrl sampleId (inl (secondsToTimestamp 36345869700583544))
     <> getTimestampUrl sampleId (inr 36345869700583544%N).
Proof.
  split; [| vm_compute; discriminate].
  intros Hb. unfold getTimestampUrl. cbv zeta.
  rewrite TimestampFacts.timestamp_back by done.
  by rewrite toString_safe.
Qed.

Lemma getTimestampUrl_agrees_witness :
  getTimestampUrl sampleId (inl (lit "2:05"))
  = Some (lit "https://www.youtube.com/watch?v=dQw4w9WgXcQ&t=125s").
Proof.
  destruct (proj1 (getTimestampUrl_agrees sampleId 125)) as [Hsame Hurl];
    [reflexivity |].
  change (lit "2:05") with (secondsToTimestamp 125).
  rewrite Hsame, Hurl. reflexivity.
Defined.

(** An option that is off, absent or zero leaves no trace in the embed
    URL; in particular a start at second 0 cannot be asked for. *)
Theorem getEmbedUrl_falsy (videoId : jsstring) (options : EmbedOptions) :
  autoplay options <> Some true ->
  (start options = None \/ start options = Some 0%N) ->
  (stop options = None \/ stop options = Some 0%N) ->
  getEmbedUrl videoId (Some options) = getEmbedUrl videoId None
  /\ getEmbedUrl videoId None = lit "https://www.youtube.com/embed/" ++ videoId.
Proof.
  intros Ha Hs He. split; [| by unfold getEmbedUrl; rewrite app_nil_r].
  destruct options as [a s e]. simpl in *.
  unfold getEmbedUrl. cbn [mbind option_bind start stop].
  destruct Hs as [-> | ->], He as [-> | ->]; cbn [truthyNumber];
    by destruct a as [[]|].
Qed.

Lemma getEmbedUrl_falsy_witness :
  getEmbedUrl (lit "dQw4w9WgXcQ")
    (Some {| autoplay := Some false; start := Some 0%N; stop := None |})
  = getEmbedUrl (lit "dQw4w9WgXcQ") None.
Proof.
  apply (getEmbedUrl_falsy (lit "dQw4w9WgXcQ")
           {| autoplay := Some false; start := Some 0%N; stop := None |});
    [discriminate | by right | by left].
Defined.

(** Setting a name the parameters do not have yet appends it. *)
Lemma paramsSet_fresh name value (params : SearchParams) :
  Forall (fun p => p.1 <> name) params ->
  paramsSet name value params = params ++ [(name, value)].
Proof.
  induction 1 as [|[n v] rest Hn _ IH]; simpl; [done |].
  destruct (decide (n = name)); [done |]. by rewrite IH.
Qed.

(** Decimal numerals are not changed by the form encoding. *)
Lemma formEncode_uintChars u : formEncode (uintChars u) = uintChars u.
Proof.
  unfold formEncode. induction u; simpl; rewrite ?IHu; reflexivity.
Qed.

(** With every option on, and start and end below [2^53], the query
    lists the options in the order autoplay, start, end, with the numbers
    as decimal numerals.  From [1e21] on a number is written with an
    exponent, whose sign is escaped. *)
Theorem getEmbedUrl_full (videoId : jsstring) (s e : N) :
  ((0 < s < 2 ^ 53)%N -> (0 < e < 2 ^ 53)%N ->
   getEmbedUrl videoId
     (Some {| autoplay := Some true; start := Some s; stop := Some e |})
   = lit "https://www.youtube.com/embed/" ++ videoId
     ++ lit "?autoplay=1&start=" ++ decimal s ++ lit "&end=" ++ decimal e)
  /\ getEmbedUrl sampleId
       (Some {| autoplay := None; start := Some 1000000000000000000000%N;
                stop := None |})
     = lit "https://www.youtube.com/embed/dQw4w9WgXcQ?start=1e%2B21".
Proof.
  split; [| vm_compute; reflexivity].
  intros [Hs Hsb] [He Heb]. unfold getEmbedUrl.
  cbn [mbind option_bind start stop].
  destruct s as [|s]; [lia |]. destruct e as [|e]; [lia |].
  cbn [truthyNumber].
  rewrite !toString_safe by done.
  rewrite !paramsSet_fresh by (repeat constructor; done).
  cbn [app].
  cbn [paramsToString]. unfold decimal. rewrite !formEncode_uintChars.
  reflexivity.
Qed.

Lemma getEmbedUrl_full_witness :
  getEmbedUrl (lit "dQw4w9WgXcQ")
    (Some {| autoplay := Some true; start := Some 30%N; stop := Some 90%N |})
  = lit "https://www.youtube.com/embed/dQw4w9WgXcQ?autoplay=1&start=30&end=90".
Proof.
  apply (proj1 (getEmbedUrl_full (lit "dQw4w9WgXcQ") 30 90)); split; reflexivity.
Defined.

End TimestampEdgeFacts.

(** ** The chat page *)

Module ChatPageFacts.
Import JS Store Persist ChatPage JSFacts.

Lemma trimStart_nil s : trimStart s = [] -> blank s.
Proof.
  induction s as [|c r IH]; simpl; [constructor |].
  destruct (isWhiteSpace c) eqn:Hc; [| done].
  intros H. apply List.Forall_cons; [exact Hc | exact (IH H)].
Qed.

Lemma trimEnd_nil s : trimEnd s = [] -> blank s.
Proof.
  induction s as [|c r IH]; simpl; [constructor |].
  destruct (trimEnd r); [| done].
  destruct (isWhiteSpace c) eqn:Hc; [| done].
  intros _. apply List.Forall_cons; [exact Hc | by apply IH].
Qed.

Lemma trimStart_head s c r : trimStart s = c :: r -> isWhiteSpace c = false.
Proof.
  induction s as [|d t IH]; simpl; [done |].
  destruct (isWhiteSpace d) eqn:Hd; [exact IH |]. by intros [= <- _].
Qed.

(** Trimming leaves nothing exactly of the strings of white space. *)
Lemma trim_nil_iff s : trim s = [] <-> blank s.
Proof.
  unfold trim. split.
  - intros H. apply trimEnd_nil in H.
    destruct (trimStart s) as [|c r] eqn:E; [by apply trimStart_nil |].
    apply trimStart_head in E. apply list.Forall_cons in H as [Hc _].
    congruence.
  - intros H. assert (E : trimStart s = []).
    { induction H as [|c r Hc _ IH]; simpl; [done | by rewrite Hc]. }
    by rewrite E.
Qed.

(** A message is sent exactly when the input has a character that is not
    white space; a blank input leaves the page as it is, and a message
    that is sent carries the input as typed, untrimmed, after the earlier
    messages. *)
Theorem handleSend_blank idNow stampNow chat :
  ((handleSend idNow stampNow chat).2 = false <-> blank (input chat))
  /\ (blank (input chat) -> (handleSend idNow stampNow chat).1 = chat)
  /\ (~ blank (input chat) ->
      exists message,
        messages (handleSend idNow stampNow chat).1 = messages chat ++ [message]
        /\ m_content message = input chat /\ m_role message = user
        /\ input (handleSend idNow stampNow chat).1 = []
        /\ isTyping (handleSend idNow stampNow chat).1 = true).
Proof.
  unfold handleSend. rewrite <- trim_nil_iff.
  destruct (trim (input chat)) as [|c r]; simpl.
  - repeat split; done.
  - split; [split; done |]. split; [done |]. intros _. eauto 10.
Qed.

Lemma handleSend_blank_witness :
  (handleSend 1700000000000 1700000000001 (typed (lit "  "))).1 = typed (lit "  ").
Proof.
  pose proof (handleSend_blank 1700000000000 1700000000001 (typed (lit "  ")))
    as (_ & Hblank & _).
  apply Hblank. repeat constructor.
Defined.

(** One exchange, the send and the answer of its timer, adds the
    user's message and then the assistant's, counts one question as long
    as the counter is below [2^53], and changes nothing that is persisted
    besides that counter. *)
Theorem exchange_counts idNow stampNow idLater stampLater chat state :
  ~ blank (input chat) ->
  (- 2 ^ 53 <= totalQuestions (stats state) < 2 ^ 53)%Z ->
  let sent := (handleSend idNow stampNow chat).1 in
  let answered := assistantReply idLater stampLater sent state in
  exists question answer,
    messages answered.1 = messages chat ++ [question; answer]
    /\ m_role question = user /\ m_role answer = assistant
    /\ isTyping answered.1 = false
    /\ totalQuestions (stats answered.2) = (totalQuestions (stats state) + 1)%Z
    /\ totalSummaries (stats answered.2) = totalSummaries (stats state)
    /\ totalExports (stats answered.2) = totalExports (stats state)
    /\ summaries answered.2 = summaries state
    /\ apiKeys answered.2 = apiKeys state
    /\ settings answered.2 = settings state.
Proof.
  intros Hinput Hcount. cbv zeta.
  rewrite <- trim_nil_iff in Hinput. unfold handleSend.
  destruct (trim (input chat)) as [|c r]; [done |]. simpl.
  eexists _, _. rewrite <- app_assoc. repeat split.
  by apply StoreActionsFacts.addOne_safe.
Qed.

Lemma exchange_counts_witness :
  exists question answer,
    messages (assistantReply 1700000001500 1700000001500
                (handleSend 1700000000000 1700000000001 (typed (lit "What is it about?"))).1
                initialState).1
    = [question; answer].
Proof.
  destruct (exchange_counts 1700000000000 1700000000001 1700000001500
              1700000001500
              (typed (lit "What is it about?")) initialState)
    as (question & answer & Hm & _).
  - intros Hb. apply list.Forall_cons in Hb as [Hw _]. discriminate.
  - split; [discriminate | reflexivity].
  - exists question, answer. exact Hm.
Defined.

End ChatPageFacts.

(** ** Stage sequences *)

Module WorkflowFacts.
Import Workflow Engine.

(** The table rows of [WORKFLOW_CONFIGS], as stages. *)
Lemma modeRow_quick : modeRow quick = [Extract; Summarize].
Proof. reflexivity. Qed.

Lemma modeRow_standard : modeRow standard = [Extract; Summarize; Cite].
Proof. reflexivity. Qed.

Lemma modeRow_research :
  modeRow research = [Extract; Summarize; Research; FactCheck; Cite].
Proof. reflexivity. Qed.

Lemma modeRow_educational : modeRow educational = [Extract; Summarize; Cite].
Proof. reflexivity. Qed.

(** Every agent name of the table stands for a stage. *)
Lemma modeRow_total m :
  length (modeRow m) = length (agents (WORKFLOW_CONFIGS m)).
Proof. by destruct m. Qed.

Lemma elem_of_resolveStages m f stage :
  stage ∈ resolveStages m f <->
  stage ∈ modeRow m \/ flagStage f stage = true.
Proof.
  unfold resolveStages. rewrite list_elem_of_filter.
  split; [tauto |]. intros H. split; [done |].
  unfold pipelineOrder. destruct stage; repeat constructor.
Qed.

Lemma resolveStages_ordered m f : resolveStages m f `sublist_of` pipelineOrder.
Proof. apply sublist_filter. Qed.

Lemma modeRow_mandatory m : take 2 (modeRow m) = [Extract; Summarize].
Proof. by destruct m. Qed.

Lemma resolveStages_mandatory m f :
  take 2 (resolveStages m f) = [Extract; Summarize].
Proof. by destruct m, f as [[] [] [] []]. Qed.

Lemma modeRow_sublist m f : modeRow m `sublist_of` resolveStages m f.
Proof.
  destruct m, f as [[] [] [] []]; vm_compute; repeat constructor.
Qed.

(** *** The engine *)

Section Run.
Variable stageFn : Stage -> PipelineState -> StageResult.

Lemma stageTrace_logStage stage status start ms st :
  stageTrace (logStage stage status start ms st) =
  stageTrace st ++
  [{| stageName := stage; traceStatus := status; startedAt := start;
      durationMs := ms |}].
Proof. reflexivity. Qed.

(** The trace only grows, by the stages run, in the order given. *)
Lemma runStages_executed budget stages : forall elapsed st,
  exists ran,
    executed (runStages stageFn budget elapsed stages st) =
      map stageName (stageTrace st) ++ ran
    /\ ran `prefix_of` stages
    /\ (forall st', runStages stageFn budget elapsed stages st = Completed st' ->
          ran = stages).
Proof.
  induction stages as [|stage rest IH]; intros elapsed st.
  { exists []. simpl. unfold executed. simpl. by rewrite app_nil_r. }
  simpl. destruct (stageFn stage st) as [st1 ms | e ms].
  - destruct (budget <? elapsed + ms)%N.
    { exists []. unfold executed. simpl. rewrite app_nil_r.
      repeat split; [apply prefix_nil | done]. }
    destruct (IH (elapsed + ms)%N
                (logStage stage stageCompleted elapsed ms
                   (withTrace st1 (stageTrace st))))
      as (ran & Hex & Hpre & Hdone).
    exists (stage :: ran). rewrite Hex, stageTrace_logStage.
    simpl. rewrite map_app, <- app_assoc. simpl.
    repeat split; [by apply prefix_cons |].
    intros st' Hc. f_equal. eauto.
  - destruct (budget <? elapsed + ms)%N.
    { exists []. unfold executed. simpl. rewrite app_nil_r.
      repeat split; [apply prefix_nil | done]. }
    destruct (mandatory stage).
    { exists [stage]. unfold executed. simpl. rewrite map_app. simpl.
      repeat split; [apply prefix_cons, prefix_nil | done]. }
    destruct (IH (elapsed + ms)%N (logStage stage stageFailed elapsed ms st))
      as (ran & Hex & Hpre & Hdone).
    exists (stage :: ran). rewrite Hex, stageTrace_logStage.
    rewrite map_app, <- app_assoc. simpl.
    repeat split; [by apply prefix_cons |].
    intros st' Hc. f_equal. eauto.
Qed.

Lemma runPipeline_executed cid src m f :
  executed (runPipeline stageFn cid src m f) `prefix_of` resolveStages m f
  /\ (forall st, runPipeline stageFn cid src m f = Completed st ->
        executed (runPipeline stageFn cid src m f) = resolveStages m f).
Proof.
  unfold runPipeline.
  destruct (runStages_executed (timeout (WORKFLOW_CONFIGS m) * 1000)
              (resolveStages m f) 0%N (initialState cid src m f))
    as (ran & Hex & Hpre & Hdone).
  simpl in Hex. rewrite Hex. split; [done |]. eauto.
Qed.

Lemma runStages_citations budget stages :
  citeOwnsCitations stageFn -> Cite ∉ stages ->
  forall elapsed st,
    citationList (finalState (runStages stageFn budget elapsed stages st)) =
    citationList st.
Proof.
  intros Hown. induction stages as [|stage rest IH]; intros Hno elapsed st.
  { reflexivity. }
  apply not_elem_of_cons in Hno as [Hne Hrest].
  simpl. destruct (stageFn stage st) as [st1 ms | e ms] eqn:Hstage.
  - destruct (budget <? elapsed + ms)%N; [done |].
    rewrite IH by done. simpl. eauto.
  - destruct (budget <? elapsed + ms)%N; [done |].
    destruct (mandatory stage); [done |]. by rewrite IH.
Qed.

End Run.

(** C1. A quick request without flags resolves to Extract, Summarize
    and its run leaves the citation list empty; for every mode and flag
    set the run goes through the resolved sequence in order (all of it
    when it completes), and that sequence is the mode's table row,
    extended exactly by the optional stages whose flag is set, with
    Extract and Summarize in front. *)
Theorem stage_sequence_by_mode
    (stageFn : Stage -> PipelineState -> StageResult)
    (cid src : string) (m : Mode) (f : Features) :
  resolveStages quick noFeatures = [Extract; Summarize]
  /\ (citeOwnsCitations stageFn ->
      citationList (finalState (runPipeline stageFn cid src quick noFeatures))
      = [])
  /\ executed (runPipeline stageFn cid src m f) `prefix_of` resolveStages m f
  /\ (forall st, runPipeline stageFn cid src m f = Completed st ->
        executed (runPipeline stageFn cid src m f) = resolveStages m f)
  /\ modeRow quick = [Extract; Summarize]
  /\ modeRow standard = [Extract; Summarize; Cite]
  /\ modeRow educational = [Extract; Summarize; Cite]
  /\ modeRow research = [Extract; Summarize; Research; FactCheck; Cite]
  /\ modeRow m `sublist_of` resolveStages m f
  /\ (forall stage, stage ∈ resolveStages m f ->
        stage ∈ modeRow m \/ (mandatory stage = false /\ flagStage f stage = true))
  /\ (forall stage, flagStage f stage = true -> stage ∈ resolveStages m f)
  /\ take 2 (resolveStages m f) = [Extract; Summarize]
  /\ resolveStages m f `sublist_of` pipelineOrder.
Proof.
  split; [reflexivity |].
  split.
  { intros Hown. unfold runPipeline.
    rewrite runStages_citations; [done | done |].
    by apply (bool_decide_unpack _). }
  pose proof (runPipeline_executed stageFn cid src m f) as [Hpre Hdone].
  do 2 (split; [done |]).
  do 4 (split; [reflexivity |]).
  split; [apply modeRow_sublist |].
  split.
  { intros stage [Hrow | Hflag]%elem_of_resolveStages; [by left |].
    right. split; [| done]. by destruct stage, f. }
  split.
  { intros stage Hflag. apply elem_of_resolveStages. by right. }
  split; [apply resolveStages_mandatory | apply resolveStages_ordered].
Qed.

Lemma sampleStages_citations : citeOwnsCitations sampleStages.
Proof.
  intros stage st st' ms Hne [= <- _]. by destruct stage.
Qed.

Lemma stage_sequence_by_mode_witness :
  citationList
    (finalState (runPipeline sampleStages "dQw4w9WgXcQ"
                   "https://youtu.be/dQw4w9WgXcQ" quick noFeatures)) = []
  /\ executed (runPipeline sampleStages "dQw4w9WgXcQ"
                 "https://youtu.be/dQw4w9WgXcQ" research noFeatures)
     = [Extract; Summarize; Research; FactCheck; Cite].
Proof.
  pose proof (stage_sequence_by_mode sampleStages "dQw4w9WgXcQ"
                "https://youtu.be/dQw4w9WgXcQ" research noFeatures)
    as (_ & Hcite & _ & Hdone & _).
  split.
  - apply Hcite, sampleStages_citations.
  - assert (Hrun : exists st,
              runPipeline sampleStages "dQw4w9WgXcQ"
                "https://youtu.be/dQw4w9WgXcQ" research noFeatures
              = Completed st).
    { eexists. vm_compute. reflexivity. }
    destruct Hrun as [st Hrun]. rewrite (Hdone st Hrun). reflexivity.
Defined.

(** With the citations flag a quick run cites as well. *)
Example quick_with_citations :
  resolveStages quick
    {| factChecking := false; webResearch := false; citations := true;
       translation := false |} = [Extract; Summarize; Cite].
Proof. reflexivity. Qed.

End WorkflowFacts.

(** ** Rate limiting *)

Module RateLimitFacts.
Import Workflow Engine RateLimit.

(** The only response that is not a served one is the rejection. *)
Lemma isServed_false r : isServed r = false -> r = RateLimitExceeded.
Proof. by destruct r. Qed.

(** A check touches the caller's counter only. *)
Lemma check_other cfg now clientId other (counters : gmap string Window) :
  other <> clientId ->
  (check cfg now clientId counters).2 !! other = counters !! other.
Proof.
  intros Hne. unfold check.
  destruct (_ <? _)%N; simpl; [| done]. by rewrite lookup_insert_ne.
Qed.

(** A rejected request leaves the counters as they were. *)
Lemma check_rejected cfg now clientId (counters : gmap string Window) :
  (check cfg now clientId counters).1 = rejected ->
  (check cfg now clientId counters).2 = counters.
Proof. unfold check. by destruct (_ <? _)%N. Qed.

(** Inside an open window the counter decides. *)
Lemma check_open cfg now clientId (counters : gmap string Window) w :
  counters !! clientId = Some w ->
  (now < opened w + windowSeconds cfg)%N ->
  check cfg now clientId counters =
  if (admitted w <? requests cfg)%N
  then (allowed,
        <[clientId := {| opened := opened w; admitted := admitted w + 1 |}]>
          counters)
  else (rejected, counters).
Proof.
  intros Hw Hopen. unfold check, currentWindow. rewrite Hw.
  by apply N.ltb_lt in Hopen as ->.
Qed.

(** Without an open window a new one starts with this request. *)
Lemma check_fresh cfg now clientId (counters : gmap string Window) :
  match counters !! clientId with
  | Some w => (opened w + windowSeconds cfg <= now)%N
  | None => True
  end ->
  (0 < requests cfg)%N ->
  check cfg now clientId counters =
  (allowed, <[clientId := {| opened := now; admitted := 1 |}]> counters).
Proof.
  intros Hold Hpos. unfold check, currentWindow.
  destruct (counters !! clientId) as [w|].
  - apply N.ltb_ge in Hold as ->. simpl.
    by apply N.ltb_lt in Hpos as ->.
  - simpl. by apply N.ltb_lt in Hpos as ->.
Qed.

Section Handler.
Variable stageFn : Stage -> PipelineState -> StageResult.
Variable cfg : Config.
Variables (clientId cid src : string) (m : Mode) (f : Features).

Lemma summarize_verdict now (counters : gmap string Window) :
  summarize stageFn cfg now clientId cid src m f counters =
  match check cfg now clientId counters with
  | (allowed, counters') =>
      (Served (runPipeline stageFn cid src m f), counters')
  | (rejected, counters') => (RateLimitExceeded, counters')
  end.
Proof. reflexivity. Qed.

Lemma replay_cons now later (counters : gmap string Window) :
  replay stageFn cfg (now :: later) clientId cid src m f counters =
  let first := summarize stageFn cfg now clientId cid src m f counters in
  let rest := replay stageFn cfg later clientId cid src m f first.2 in
  (first.1 :: rest.1, rest.2).
Proof.
  simpl. destruct (summarize _ _ _ _ _ _ _ _ _) as [r counters'].
  simpl. by destruct (replay _ _ _ _ _ _ _ _ _).
Qed.

(** Requests inside one open window: the counter lets the first ones
    through until the limit is reached and rejects the rest; the window
    stays the same one. *)
Lemma replay_open times : forall (counters : gmap string Window) w,
  counters !! clientId = Some w ->
  Forall (fun now => (now < opened w + windowSeconds cfg)%N) times ->
  let out := replay stageFn cfg times clientId cid src m f counters in
  map isServed out.1 = served (requests cfg) (admitted w) (length times)
  /\ exists w', out.2 !! clientId = Some w' /\ opened w' = opened w.
Proof.
  induction times as [|now later IH]; intros counters w Hw Hopen; simpl.
  { split; eauto. }
  apply list.Forall_cons in Hopen as [Hnow Hlater].
  rewrite summarize_verdict, (check_open _ _ _ _ _ Hw Hnow).
  destruct (admitted w <? requests cfg)%N.
  - set (w1 := {| opened := opened w; admitted := admitted w + 1 |}).
    destruct (IH (<[clientId := w1]> counters) w1) as (Hs & Hw');
      [apply lookup_insert_eq | done |].
    destruct (replay _ _ later _ _ _ _ _ _) as [rs counters''].
    simpl in *. by rewrite Hs.
  - destruct (IH counters w Hw Hlater) as (Hs & Hw').
    destruct (replay _ _ later _ _ _ _ _ _) as [rs counters''].
    simpl in *. by rewrite Hs.
Qed.

End Handler.

(** C6. With a limit of 5 requests per 60 seconds, a client whose window
    opens at [t1] is served at [t1] and at the next four times before
    [t1 + 60], is answered [RateLimitExceeded] at the sixth, for which no
    stage runs, and is served again at any time from [t1 + 60] on. *)
Theorem rate_limit_five_per_minute
    (stageFn : Stage -> PipelineState -> StageResult)
    (clientId cid src : string) (m : Mode) (f : Features)
    (counters : gmap string Window) (t1 t2 t3 t4 t5 t6 t7 : N) :
  match counters !! clientId with
  | Some w => (opened w + 60 <= t1)%N
  | None => True
  end ->
  (t2 < t1 + 60)%N -> (t3 < t1 + 60)%N -> (t4 < t1 + 60)%N ->
  (t5 < t1 + 60)%N -> (t6 < t1 + 60)%N ->
  (t1 + 60 <= t7)%N ->
  let out := replay stageFn fivePerMinute [t1; t2; t3; t4; t5; t6]
               clientId cid src m f counters in
  let again := summarize stageFn fivePerMinute t7 clientId cid src m f out.2 in
  map isServed out.1 = [true; true; true; true; true; false]
  /\ out.1 !! 5%nat = Some RateLimitExceeded
  /\ stagesRun RateLimitExceeded = []
  /\ (forall o, RateLimitExceeded <> Served o)
  /\ isServed again.1 = true.
Proof.
  intros Hold H2 H3 H4 H5 H6 H7. cbv zeta.
  rewrite replay_cons. cbv zeta. rewrite summarize_verdict.
  rewrite check_fresh by done. cbn [fst snd].
  set (w1 := {| opened := t1; admitted := 1 |}).
  destruct (replay_open stageFn fivePerMinute clientId cid src m f
              [t2; t3; t4; t5; t6] (<[clientId := w1]> counters) w1)
    as (Hs & w' & Hw' & Hopened).
  { apply lookup_insert_eq. }
  { repeat constructor; done. }
  destruct (replay _ _ [t2; t3; t4; t5; t6] _ _ _ _ _ _) as [rs counters'].
  simpl in Hs, Hw', Hopened. simpl.
  rewrite Hs. change (served 5 1 5) with [true; true; true; true; false].
  split; [done |].
  split.
  { destruct rs as [|r1 [|r2 [|r3 [|r4 [|r5 rs]]]]]; try discriminate.
    simpl. f_equal. apply isServed_false.
    by injection Hs as _ _ _ _ Hfifth. }
  split; [done |]. split; [done |].
  rewrite summarize_verdict, check_fresh; [done | | done].
  rewrite Hw'. rewrite Hopened. exact H7.
Qed.

(** Six requests within one minute, and one more when the minute is
    over. *)
Lemma rate_limit_five_per_minute_witness :
  map isServed
    (replay sampleStages fivePerMinute
       [100; 101; 102; 110; 130; 159]%N "10.0.0.7" "dQw4w9WgXcQ"
       "https://youtu.be/dQw4w9WgXcQ" quick noFeatures ∅).1
  = [true; true; true; true; true; false]
  /\ isServed
       (summarize sampleStages fivePerMinute 160 "10.0.0.7"
          "dQw4w9WgXcQ" "https://youtu.be/dQw4w9WgXcQ" quick noFeatures
          (replay sampleStages fivePerMinute
             [100; 101; 102; 110; 130; 159]%N "10.0.0.7" "dQw4w9WgXcQ"
             "https://youtu.be/dQw4w9WgXcQ" quick noFeatures ∅).2).1 = true.
Proof.
  pose proof (rate_limit_five_per_minute sampleStages
                "10.0.0.7" "dQw4w9WgXcQ" "https://youtu.be/dQw4w9WgXcQ"
                quick noFeatures ∅ 100 101 102 110 130 159 160) as H.
  cbv zeta in H.
  destruct H as (Hs & _ & _ & _ & Hagain);
    [by rewrite lookup_empty | lia | lia | lia | lia | lia | lia |].
  split; [exact Hs | exact Hagain].
Defined.

End RateLimitFacts.
